(** * Linear regression notebook: objective functions and mock data

    A shallow embedding of the Python code cells of
    [Introduction to Bayesian Inference with Linear Regression.ipynb]:
    the mock-data generator [gen_mock_data] and the objective functions
    [loss], [chi2], [negloglike], [neglogprior] and [neglogpost].

    Conventions of the embedding.
    - A finite NumPy [float64] is idealised as a real number ([R]); rounding
      and overflow are not modelled.  The non-finite doubles ([inf], [nan])
      that NumPy produces on a division by zero or a logarithm of zero are
      kept apart as the single value [NonFinite].
    - A one-dimensional NumPy array is a [list R].
    - A Python exception is a [Raise] result.
    - [np.random.RandomState] objects live in a heap of generator objects;
      location [0] of a heap is, by convention, NumPy's global generator.
      Every notebook function is a computation over that heap. *)

From Stdlib Require Import Reals Lra Lia ZArith List Bool Arith.
From Stdlib Require Import Sorting.Sorted Sorting.Permutation.
Import ListNotations.

Local Open Scope R_scope.

(** ** Values, exceptions and results *)

(** What a floating-point expression evaluates to. *)
Inductive value : Type :=
| Finite (r : R)
| NonFinite.

(** The Python exceptions the notebook can meet.  [DomainError] is the
    error the specification asks the objective functions to raise on
    malformed input. *)
Inductive exn : Type :=
| ValueError
| IndexError
| ReferenceError
| DomainError.

Inductive result (A : Type) : Type :=
| Ok (a : A)
| Raise (e : exn).
Arguments Ok {A} a.
Arguments Raise {A} e.

(** ** Floating-point arithmetic on values *)

Definition vneg (v : value) : value :=
  match v with
  | Finite r => Finite (- r)
  | NonFinite => NonFinite
  end.

Definition vadd (v1 v2 : value) : value :=
  match v1, v2 with
  | Finite a, Finite b => Finite (a + b)
  | _, _ => NonFinite
  end.

Definition vscale (c : R) (v : value) : value :=
  match v with
  | Finite r => Finite (c * r)
  | NonFinite => NonFinite
  end.

(** [v ** 2] on a value: the square of [inf] or [nan] is not finite. *)
Definition vsquare (v : value) : value :=
  match v with
  | Finite r => Finite (r ^ 2)
  | NonFinite => NonFinite
  end.

(** [a / b] on doubles: NumPy warns and yields [inf] or [nan] when [b = 0]. *)
Definition np_divide (a b : R) : value :=
  if Req_dec_T b 0 then NonFinite else Finite (a / b).

(** [np.log(a)]: [-inf] at [0], [nan] below. *)
Definition np_log (a : R) : value :=
  if Rlt_dec 0 a then Finite (ln a) else NonFinite.

(** [a ** p] for a base [a >= 0] (the only bases the notebook uses are
    absolute values): [0 ** 0 = 1], [0 ** p = 0] for [p > 0] and
    [0 ** p = inf] for [p < 0]. *)
Definition np_power (a p : R) : value :=
  if Rlt_dec 0 a then Finite (Rpower a p)
  else if Rlt_dec p 0 then NonFinite
  else if Rlt_dec 0 p then Finite 0
  else Finite 1.

(** [np.sum] of an array of finite doubles, and of an array of values. *)
Definition np_sum (l : list R) : R := fold_right Rplus 0 l.

Definition np_vsum (l : list value) : value := fold_right vadd (Finite 0) l.

(** Element-wise combination of two arrays of the same shape. *)
Fixpoint map2 {A B C : Type} (f : A -> B -> C) (l1 : list A) (l2 : list B)
  : list C :=
  match l1, l2 with
  | a :: l1', b :: l2' => f a b :: map2 f l1' l2'
  | _, _ => []
  end.

(** The sum [f 0 + f 1 + ... + f (n-1)], used to state formulas the way
    the specification writes them. *)
Fixpoint Sigma (n : nat) (f : nat -> R) : R :=
  match n with
  | O => 0
  | S k => f O + Sigma k (fun i => f (S i))
  end.

(** The same sum in double arithmetic, where a term may be non-finite. *)
Fixpoint vSigma (n : nat) (f : nat -> value) : value :=
  match n with
  | O => Finite 0
  | S k => vadd (f O) (vSigma k (fun i => f (S i)))
  end.

(** ** Sorting: [np.sort] *)

Fixpoint insert_sorted (a : R) (l : list R) : list R :=
  match l with
  | [] => [a]
  | b :: l' => if Rle_dec a b then a :: l else b :: insert_sorted a l'
  end.

(** [np.sort] returns the nondecreasing rearrangement of its argument,
    which is one list whatever algorithm computes it; insertion sort is
    used here. *)
Definition np_sort (l : list R) : list R := fold_right insert_sorted [] l.

(** ** The random number generator

    [np.random.RandomState] is NumPy's Mersenne Twister; its code is not
    part of the notebook.  The notebook relies on an initial state per
    seed, a draw of a double in [[0, 1)] and a draw of a standard normal
    deviate, each advancing the state. *)
Class BitGenerator : Type := {
  gen_state : Type;
  seed_state : Z -> gen_state;
  next_double : gen_state -> R * gen_state;
  next_gauss : gen_state -> R * gen_state;
  next_double_range : forall st, 0 <= fst (next_double st) < 1
}.

(** Python's [seq[i]] for a non-negative index. *)
Definition index {A : Type} (l : list A) (i : nat) : result A :=
  match nth_error l i with
  | Some a => Ok a
  | None => Raise IndexError
  end.

(** NumPy broadcasting of two one-dimensional arrays: equal lengths, or
    one of them of length one, which is then repeated. *)
Definition broadcast2 (a b : list R) : result (list (R * R)) :=
  if Nat.eqb (length a) (length b) then Ok (combine a b)
  else match a, b with
       | [a0], _ => Ok (map (fun bi => (a0, bi)) b)
       | _, [b0] => Ok (map (fun ai => (ai, b0)) a)
       | _, _ => Raise ValueError
       end.

(** An argument of a NumPy routine that accepts a scalar or an array. *)
Inductive arg : Type :=
| Scalar (r : R)
| Array (l : list R).

Definition arg_values (a : arg) : list R :=
  match a with
  | Scalar r => [r]
  | Array l => l
  end.

(** An array against a scalar or an array: a scalar pairs with every
    element. *)
Definition broadcast_arg (a : list R) (b : arg) : result (list (R * R)) :=
  match b with
  | Scalar b0 => Ok (map (fun ai => (ai, b0)) a)
  | Array bl => broadcast2 a bl
  end.

Definition Rltb (a b : R) : bool := if Rlt_dec a b then true else false.

Section Generator.

Context {G : BitGenerator}.

(** *** Methods of a [RandomState], on its state *)

(** [n] successive doubles in [[0, 1)]. *)
Fixpoint draw_doubles (n : nat) (st : gen_state) : list R * gen_state :=
  match n with
  | O => ([], st)
  | S k =>
      let (d, st1) := next_double st in
      let (ds, st2) := draw_doubles k st1 in
      (d :: ds, st2)
  end.

(** One normal deviate [loc + scale * gauss] per (loc, scale) pair. *)
Fixpoint draw_normals (ps : list (R * R)) (st : gen_state)
  : list R * gen_state :=
  match ps with
  | [] => ([], st)
  | (loc, scale) :: ps' =>
      let (g, st1) := next_gauss st in
      let (gs, st2) := draw_normals ps' st1 in
      (loc + scale * g :: gs, st2)
  end.

(** [rstate.rand(N)]. *)
Definition rand_method (N : Z) (st : gen_state)
  : result (list R) * gen_state :=
  if (N <? 0)%Z then (Raise ValueError, st)
  else let (ds, st') := draw_doubles (Z.to_nat N) st in (Ok ds, st').

(** [rstate.uniform(low, high, N)]: [low + (high - low) * u] per draw. *)
Definition uniform_method (low high : R) (N : Z) (st : gen_state)
  : result (list R) * gen_state :=
  if (N <? 0)%Z then (Raise ValueError, st)
  else let (ds, st') := draw_doubles (Z.to_nat N) st in
       (Ok (map (fun u => low + (high - low) * u) ds), st').

(** [rstate.normal(loc, scale)] with an array [loc]: a negative scale is
    refused, then the shapes are broadcast and one deviate is drawn per
    element. *)
Definition normal_method (loc : list R) (scale : arg) (st : gen_state)
  : result (list R) * gen_state :=
  if existsb (fun sc => Rltb sc 0) (arg_values scale)
  then (Raise ValueError, st)
  else match broadcast_arg loc scale with
       | Raise e => (Raise e, st)
       | Ok ps => let (ys, st') := draw_normals ps st in (Ok ys, st')
       end.

(** *** The heap of generator objects and the monad of the notebook *)

Definition heap : Type := list gen_state.
Definition ref : Type := nat.

Definition M (A : Type) : Type := heap -> result A * heap.

Definition ret {A : Type} (a : A) : M A := fun h => (Ok a, h).
Definition raise {A : Type} (e : exn) : M A := fun h => (Raise e, h).
Definition bind {A B : Type} (c : M A) (k : A -> M B) : M B :=
  fun h => match c h with
           | (Ok a, h') => k a h'
           | (Raise e, h') => (Raise e, h')
           end.
Definition lift {A : Type} (r : result A) : M A := fun h => (r, h).

(** Replace the object at a location. *)
Fixpoint update (h : heap) (r : ref) (st : gen_state) : heap :=
  match h, r with
  | [], _ => []
  | _ :: h', O => st :: h'
  | s0 :: h', S r' => s0 :: update h' r' st
  end.

(** Call a method on the generator object at [r]: the object is read,
    the method runs on its state and the new state is written back. *)
Definition with_generator {A : Type} (r : ref)
  (method : gen_state -> result A * gen_state) : M A :=
  fun h => match nth_error h r with
           | None => (Raise ReferenceError, h)
           | Some st => let (res, st') := method st in (res, update h r st')
           end.

(** [np.random.RandomState(seed)]: a new generator object; the seed must
    fit in 32 bits. *)
Definition RandomState (seed : Z) : M ref :=
  fun h => if ((0 <=? seed) && (seed <=? 4294967295))%Z
           then (Ok (length h), h ++ [seed_state seed])
           else (Raise ValueError, h).

End Generator.

Declare Scope notebook_scope.
Delimit Scope notebook_scope with nb.
Notation "x <- c ;; k" := (bind c (fun x => k))
  (at level 61, c at next level, right associativity) : notebook_scope.
Local Open Scope notebook_scope.

(** ** The notebook's functions *)

Section Notebook.

Context {G : BitGenerator}.

(** [gen_mock_data(seed, m, b, s, unc, N)] (code cell 6). *)
Definition gen_mock_data (seed : Z) (m b s : R) (unc : list R) (N : Z)
  : M (list R * list R * list R) :=
  rstate <- RandomState seed ;;
  u <- with_generator rstate (rand_method N) ;;
  let x := np_sort (map (fun ui => 3 * ui) u) in
  let y_int := map (fun xi => m * xi + b) x in
  y <- with_generator rstate (normal_method y_int (Scalar s)) ;;
  lo <- lift (index unc 0) ;;
  hi <- lift (index unc 1) ;;
  yerr <- with_generator rstate (uniform_method lo hi N) ;;
  yobs <- with_generator rstate (normal_method y (Array yerr)) ;;
  ret (x, yobs, yerr).

(** The call of code cell 7, [gen_mock_data()], with the default
    arguments of the definition. *)
Definition gen_mock_data_default : M (list R * list R * list R) :=
  gen_mock_data 123 0.875 2.523 0.523 [0.2; 0.6] 50.

(** [prior_means] and [prior_stds] (code cell 59), for [m], [b], [s]. *)
Definition prior_means : list R := [1; 3; 0.5].
Definition prior_stds : list R := [0.25; 0.5; 0.15].

(** Modelled from the spec: the check that the specification (section 7)
    asks of every objective function, "mismatched sequence lengths fail
    fast with a descriptive domain error"; the notebook has no such line. *)
Definition same_shape (a b : list R) : M unit :=
  if Nat.eqb (length a) (length b) then ret tt else raise DomainError.

(** Modelled from the spec: the body of [loss] (code cell 19), where the
    notebook leaves [resid = ...] and [return ...] blank.  Section 4.1:
    residual_i = y_i - (m x_i + b); returns the sum of |residual_i|^p.
    The unpacking of [theta] and [ypred] are the notebook's lines. *)
Definition loss (theta : list R) (p : R) (x y : list R) : M value :=
  match theta with
  | [m; b] =>
      let ypred := map (fun xi => m * xi + b) x in
      _ <- same_shape y ypred ;;
      let resid := map2 Rminus y ypred in
      ret (np_vsum (map (fun r => np_power (Rabs r) p) resid))
  | _ => raise ValueError
  end.

(** Modelled from the spec: the body of [chi2] (code cell 29), where the
    notebook leaves [resid = ...] and [return ...] blank.  Section 4.1:
    returns the sum of ((y_i - (m x_i + b)) / sigma_i)^2, with
    "division-by-zero behavior" where a sigma_i is zero: the division is
    the array division of NumPy and nothing checks sigma, as nothing in
    the notebook does.  The unpacking of [theta] and [ypred] are the
    notebook's lines. *)
Definition chi2 (theta : list R) (x y ye : list R) : M value :=
  match theta with
  | [m; b] =>
      let ypred := map (fun xi => m * xi + b) x in
      _ <- same_shape y ypred ;;
      _ <- same_shape y ye ;;
      let resid := map2 np_divide (map2 Rminus y ypred) ye in
      ret (np_vsum (map vsquare resid))
  | _ => raise ValueError
  end.

(** Modelled from the spec: the body of [negloglike] (code cell 48), where
    the notebook leaves [resid = ...] and [logl = ...] blank.  Section
    4.1: per-point variance v_i = sigma_i^2 + s^2; returns
    0.5 * sum of ((y_i - (m x_i + b))^2 / v_i + ln(2 pi v_i)).  The
    unpacking of [theta], [ypred] and [return -logl] are the notebook's
    lines. *)
Definition negloglike (theta : list R) (x y ye : list R) : M value :=
  match theta with
  | [m; b; s] =>
      let ypred := map (fun xi => m * xi + b) x in
      _ <- same_shape y ypred ;;
      _ <- same_shape y ye ;;
      let resid := map2 Rminus y ypred in
      let var := map (fun e => e ^ 2 + s ^ 2) ye in
      let logl :=
        vscale (- (1 / 2))
          (np_vsum (map2 (fun r v => vadd (np_divide (r ^ 2) v)
                                          (np_log (2 * PI * v)))
                         resid var)) in
      ret (vneg logl)
  | _ => raise ValueError
  end.

(** Modelled from the spec: the body of [neglogprior] (code cell 59),
    which the notebook leaves blank.  Section 4.1: returns
    0.5 * sum over j of ((theta_j - mean_j)^2 / std_j^2 + ln(2 pi std_j^2)),
    in the array arithmetic of NumPy; nothing checks std. *)
Definition neglogprior (theta mean std : list R) : M value :=
  _ <- same_shape theta mean ;;
  _ <- same_shape mean std ;;
  ret (vscale (1 / 2)
         (np_vsum (map2 (fun t ms =>
                           vadd (np_divide ((t - fst ms) ^ 2) (snd ms ^ 2))
                                (np_log (2 * PI * snd ms ^ 2)))
                        theta (combine mean std)))).

(** [neglogpost] (code cell 59), over the two functions it calls. *)
Definition neglogpost
  (negloglike_f : list R -> list R -> list R -> list R -> M value)
  (neglogprior_f : list R -> list R -> list R -> M value)
  (theta : list R) (x y ye mean std : list R) : M value :=
  match theta with
  | [m; b; s] =>
      nlp <- neglogprior_f theta mean std ;;
      let logp := vneg nlp in
      nll <- negloglike_f theta x y ye ;;
      let logl := vneg nll in
      ret (vneg (vadd logl logp))
  | _ => raise ValueError
  end.

End Notebook.

(** The invariant of a DataSet (specification, section 3): three
    index-aligned sequences of one length [N >= 1]. *)
Definition DataSet_invariant (x y sigma : list R) : Prop :=
  length x = length y /\ length y = length sigma /\ (1 <= length x)%nat.

(** A computation that is deterministic and free of side effects: run in
    any two heaps it returns the same result, and it leaves the heap it
    is run in unchanged. *)
Definition deterministic_pure {G : BitGenerator} {A : Type} (c : M A) : Prop :=
  forall h1 h2 : heap, fst (c h1) = fst (c h2) /\ snd (c h1) = h1.

(** [framed c]: run on a generator at [r] in a heap extended on the left,
    [c] returns what it returns on the heap alone and leaves the
    extension as it was. *)
Definition framed {G : BitGenerator} {A : Type} (c : ref -> M A) : Prop :=
  forall (h0 h : heap) (r : ref),
    c (length h0 + r)%nat (h0 ++ h) = (fst (c r h), h0 ++ snd (c r h)).

(** [n] successive standard normal deviates of a generator: the
    deviates that [draw_normals] scales and shifts. *)
Fixpoint draw_gauss {G : BitGenerator} (n : nat) (st : gen_state)
  : list R * gen_state :=
  match n with
  | O => ([], st)
  | S k =>
      let (g, st1) := next_gauss st in
      let (gs, st2) := draw_gauss k st1 in
      (g :: gs, st2)
  end.

(** The draws that one call [gen_mock_data(seed, ..., N)] consumes, in
    the order of its lines: [n] doubles for [x], [n] deviates for the
    intrinsic scatter, [n] doubles for [yerr], [n] deviates for the
    measurement noise. *)
Definition mock_draws {G : BitGenerator} (seed : Z) (n : nat)
  : (list R * list R * list R * list R) * gen_state :=
  let (u, st1) := draw_doubles n (seed_state seed) in
  let (g, st2) := draw_gauss n st1 in
  let (d, st3) := draw_doubles n st2 in
  let (g', st4) := draw_gauss n st3 in
  ((u, g, d, g'), st4).

(** ** The prior covariance of code cell 64

    [np.diag(prior_stds**2)], the covariance matrix handed to
    [np.random.multivariate_normal]; a matrix is the list of its rows. *)

(** [a ** 2] on an array. *)
Definition np_square (a : list R) : list R := map (fun e => e ^ 2) a.

(** [np.diag(d)] for a one-dimensional [d]: the square matrix with [d] on
    its diagonal and zeros elsewhere. *)
Fixpoint np_diag (d : list R) : list (list R) :=
  match d with
  | [] => []
  | a :: d' => (a :: repeat 0 (length d')) :: map (cons 0) (np_diag d')
  end.

Definition prior_covariance (std : list R) : list (list R) :=
  np_diag (np_square std).

(** The entry at row [i], column [j]. *)
Definition entry (mat : list (list R)) (i j : nat) : R :=
  nth j (nth i mat []) 0.

(** The dot product of two vectors and the quadratic form [z^T C z]. *)
Definition dot (a b : list R) : R := np_sum (map2 Rmult a b).

Definition quadratic_form (mat : list (list R)) (z : list R) : R :=
  dot z (map (fun row => dot row z) mat).

(** ** A concrete generator

    A small linear congruential generator: an inhabitant of
    [BitGenerator] on which the notebook's functions can be run. *)
Definition lcg_step (st : Z) : Z := ((1103515245 * st + 12345) mod 2147483648)%Z.

Definition lcg_generator : BitGenerator.
Proof.
  refine {| gen_state := Z;
            seed_state := fun seed => seed;
            next_double := fun st => (IZR (st mod 1024) / 1024, lcg_step st);
            next_gauss := fun st => (IZR (st mod 7) - 3, lcg_step st);
            next_double_range := _ |}.
  intros st; simpl.
  assert (H : (0 <= st mod 1024 < 1024)%Z) by (apply Z.mod_pos_bound; lia).
  destruct H as [H0 H1].
  apply IZR_le in H0. apply IZR_lt in H1.
  split; lra.
Defined.

(** * Properties *)

(** ** Sorting *)

Lemma insert_sorted_perm (a : R) (l : list R) :
  Permutation (insert_sorted a l) (a :: l).
Proof.
  induction l as [|b l IH]; simpl.
  - apply Permutation_refl.
  - destruct (Rle_dec a b).
    + apply Permutation_refl.
    + apply Permutation_trans with (b :: a :: l).
      * now apply perm_skip.
      * apply perm_swap.
Qed.

Lemma np_sort_perm (l : list R) : Permutation (np_sort l) l.
Proof.
  induction l as [|a l IH]; simpl.
  - apply perm_nil.
  - apply Permutation_trans with (a :: np_sort l).
    + apply insert_sorted_perm.
    + now apply perm_skip.
Qed.

Lemma insert_sorted_hdrel (a c : R) (l : list R) :
  c <= a -> HdRel Rle c l -> HdRel Rle c (insert_sorted a l).
Proof.
  intros Hca Hl.
  destruct l as [|b l]; simpl.
  - now constructor.
  - destruct (Rle_dec a b).
    + now constructor.
    + constructor. now inversion Hl.
Qed.

Lemma insert_sorted_sorted (a : R) (l : list R) :
  Sorted Rle l -> Sorted Rle (insert_sorted a l).
Proof.
  induction 1 as [|b l Hs IH Hhd]; simpl.
  - repeat constructor.
  - destruct (Rle_dec a b) as [Hab|Hab].
    + constructor; [now constructor | now constructor].
    + constructor; [exact IH |].
      apply insert_sorted_hdrel; [lra | exact Hhd].
Qed.

Lemma np_sort_sorted (l : list R) : StronglySorted Rle (np_sort l).
Proof.
  apply Sorted_StronglySorted.
  - intros a b c; apply Rle_trans.
  - induction l as [|a l IH]; simpl.
    + constructor.
    + now apply insert_sorted_sorted.
Qed.

Lemma np_sort_length (l : list R) : length (np_sort l) = length l.
Proof. apply Permutation_length, np_sort_perm. Qed.

Lemma np_sort_Forall (P : R -> Prop) (l : list R) :
  Forall P l -> Forall P (np_sort l).
Proof.
  intros H. eapply Permutation_Forall; [|exact H].
  apply Permutation_sym, np_sort_perm.
Qed.

(** ** The generator's methods *)

Section GeneratorFacts.

Context {G : BitGenerator}.

Lemma draw_doubles_length (n : nat) (st : gen_state) :
  length (fst (draw_doubles n st)) = n.
Proof.
  revert st; induction n as [|n IH]; intros st; simpl.
  - reflexivity.
  - destruct (next_double st) as [d st1].
    specialize (IH st1). destruct (draw_doubles n st1) as [ds st2].
    simpl in *. now rewrite IH.
Qed.

Lemma draw_doubles_range (n : nat) (st : gen_state) :
  Forall (fun d => 0 <= d < 1) (fst (draw_doubles n st)).
Proof.
  revert st; induction n as [|n IH]; intros st; simpl.
  - constructor.
  - pose proof (next_double_range st) as Hd.
    destruct (next_double st) as [d st1].
    specialize (IH st1). destruct (draw_doubles n st1) as [ds st2].
    simpl in *. now constructor.
Qed.

Lemma draw_normals_length (ps : list (R * R)) (st : gen_state) :
  length (fst (draw_normals ps st)) = length ps.
Proof.
  revert st; induction ps as [|[loc scale] ps IH]; intros st; simpl.
  - reflexivity.
  - destruct (next_gauss st) as [g st1].
    specialize (IH st1). destruct (draw_normals ps st1) as [gs st2].
    simpl in *. now rewrite IH.
Qed.

(** No element of [l] is negative: the scale check of [normal] passes. *)
Lemma no_negative_scale (l : list R) :
  Forall (fun e => 0 <= e) l -> existsb (fun sc => Rltb sc 0) l = false.
Proof.
  induction 1 as [|e l He _ IH]; simpl.
  - reflexivity.
  - unfold Rltb at 1. destruct (Rlt_dec e 0); [lra | exact IH].
Qed.

(** ** Heap discipline: a computation only touches the object it is given *)

Lemma nth_error_shift (h0 h : heap) (r : ref) :
  nth_error (h0 ++ h) (length h0 + r)%nat = nth_error h r.
Proof. induction h0; simpl; auto. Qed.

Lemma update_shift (h0 h : heap) (r : ref) (st : gen_state) :
  update (h0 ++ h) (length h0 + r)%nat st = h0 ++ update h r st.
Proof. induction h0 as [|s0 h0 IH]; simpl; [reflexivity | now rewrite IH]. Qed.

Lemma framed_with_generator {A : Type}
  (method : gen_state -> result A * gen_state) :
  framed (fun r => with_generator r method).
Proof.
  intros h0 h r. unfold with_generator.
  rewrite nth_error_shift.
  destruct (nth_error h r) as [st|]; simpl.
  - destruct (method st) as [res st']; simpl. now rewrite update_shift.
  - reflexivity.
Qed.

Lemma framed_lift {A : Type} (res : result A) : framed (fun _ => lift res).
Proof. intros h0 h r. reflexivity. Qed.

Lemma framed_ret {A : Type} (a : A) : framed (fun _ => ret a).
Proof. intros h0 h r. reflexivity. Qed.

Lemma framed_bind {A B : Type} (c : ref -> M A) (k : A -> ref -> M B) :
  framed c -> (forall a, framed (k a)) ->
  framed (fun r => bind (c r) (fun a => k a r)).
Proof.
  intros Hc Hk h0 h r. unfold bind.
  rewrite Hc.
  destruct (c r h) as [[a|e] h1]; simpl.
  - apply Hk.
  - reflexivity.
Qed.

Lemma RandomState_bind_frame {A : Type} (seed : Z) (k : ref -> M A) :
  framed k ->
  forall h : heap,
    bind (RandomState seed) k h
    = (fst (bind (RandomState seed) k []),
       h ++ snd (bind (RandomState seed) k [])).
Proof.
  intros Hk h. unfold bind, RandomState.
  destruct ((0 <=? seed) && (seed <=? 4294967295))%Z; simpl.
  - specialize (Hk h [seed_state seed] O).
    rewrite Nat.add_0_r in Hk. exact Hk.
  - now rewrite app_nil_r.
Qed.

Lemma gen_mock_data_frame (seed : Z) (m b s : R) (unc : list R) (N : Z)
  (h : heap) :
  gen_mock_data seed m b s unc N h
  = (fst (gen_mock_data seed m b s unc N []),
     h ++ snd (gen_mock_data seed m b s unc N [])).
Proof.
  unfold gen_mock_data.
  apply RandomState_bind_frame.
  apply framed_bind; [apply framed_with_generator | intros u].
  apply framed_bind; [apply framed_with_generator | intros y].
  apply (framed_bind (fun _ => lift (index unc 0))); [apply framed_lift | intros lo].
  apply (framed_bind (fun _ => lift (index unc 1))); [apply framed_lift | intros hi].
  apply framed_bind; [apply framed_with_generator | intros yerr].
  apply framed_bind; [apply framed_with_generator | intros yobs].
  apply framed_ret.
Qed.

End GeneratorFacts.

(** ** [gen_mock_data] *)

Section MockData.

Context {G : BitGenerator}.

Lemma uniform_values_range (lo hi : R) (ds : list R) :
  Forall (fun d => 0 <= d < 1) ds ->
  Forall (fun e => Rmin lo hi <= e <= Rmax lo hi)
         (map (fun u => lo + (hi - lo) * u) ds).
Proof.
  induction 1 as [|d ds Hd _ IH]; simpl; constructor; [|exact IH].
  unfold Rmin, Rmax. destruct (Rle_dec lo hi); split; nra.
Qed.

(** One step of a run on the heap that holds one generator. *)
Lemma bind_RandomState_nil {A : Type} (seed : Z) (k : ref -> M A) :
  (0 <= seed <= 4294967295)%Z ->
  bind (RandomState seed) k [] = k O [seed_state seed].
Proof.
  intros Hseed. unfold bind, RandomState.
  replace ((0 <=? seed) && (seed <=? 4294967295))%Z with true; [reflexivity|].
  symmetry. apply andb_true_intro; split; apply Z.leb_le; lia.
Qed.

Lemma bind_with_generator_single {A B : Type}
  (method : gen_state -> result A * gen_state) (k : A -> M B)
  (st : gen_state) :
  bind (with_generator O method) k [st]
  = match method st with
    | (Ok a, st') => k a [st']
    | (Raise e, st') => (Raise e, [st'])
    end.
Proof.
  unfold bind, with_generator; simpl.
  destruct (method st) as [[a|e] st']; reflexivity.
Qed.

Lemma bind_lift {A B : Type} (res : result A) (k : A -> M B) (h : heap) :
  bind (lift res) k h
  = match res with
    | Ok a => k a h
    | Raise e => (Raise e, h)
    end.
Proof. unfold bind, lift. destruct res; reflexivity. Qed.

(** The successful run of [gen_mock_data] on the empty heap, with the
    draws that make up the three arrays. *)
Lemma gen_mock_data_run (seed : Z) (m b s lo hi : R) (N : Z) :
  (0 <= seed <= 4294967295)%Z -> (0 <= N)%Z ->
  0 <= s -> 0 <= lo -> 0 <= hi ->
  exists (u d yobs : list R) (st : gen_state),
    gen_mock_data seed m b s [lo; hi] N []
    = (Ok (np_sort (map (fun ui => 3 * ui) u), yobs,
           map (fun ui => lo + (hi - lo) * ui) d), [st])
    /\ length u = Z.to_nat N /\ Forall (fun e => 0 <= e < 1) u
    /\ length d = Z.to_nat N /\ Forall (fun e => 0 <= e < 1) d
    /\ length yobs = Z.to_nat N.
Proof.
  intros Hseed HN Hs Hlo Hhi.
  assert (HNb : (N <? 0)%Z = false) by (apply Z.ltb_ge; lia).
  unfold gen_mock_data.
  rewrite bind_RandomState_nil by exact Hseed. cbv beta.
  (* rstate.rand(N) *)
  rewrite bind_with_generator_single.
  unfold rand_method. rewrite HNb.
  pose proof (draw_doubles_length (Z.to_nat N) (seed_state seed)) as Hul.
  pose proof (draw_doubles_range (Z.to_nat N) (seed_state seed)) as Hur.
  destruct (draw_doubles (Z.to_nat N) (seed_state seed)) as [u st1].
  simpl in Hul, Hur. cbv beta iota zeta.
  set (x := np_sort (map (fun ui => 3 * ui) u)).
  assert (Hxl : length x = Z.to_nat N).
  { unfold x. now rewrite np_sort_length, length_map. }
  (* rstate.normal(y_int, s) *)
  rewrite bind_with_generator_single.
  unfold normal_method at 1.
  rewrite (no_negative_scale (arg_values (Scalar s)))
    by (constructor; [exact Hs | constructor]).
  unfold broadcast_arg at 1.
  set (ps := map (fun ai => (ai, s)) (map (fun xi => m * xi + b) x)).
  pose proof (draw_normals_length ps st1) as Hyl.
  destruct (draw_normals ps st1) as [y st2].
  simpl in Hyl. cbv beta iota zeta.
  assert (Hyl' : length y = Z.to_nat N).
  { rewrite Hyl. unfold ps. now rewrite !length_map. }
  (* unc[0], unc[1] and rstate.uniform *)
  rewrite bind_lift. unfold index at 1. simpl nth_error. cbv beta iota zeta.
  rewrite bind_lift. unfold index at 1. simpl nth_error. cbv beta iota zeta.
  rewrite bind_with_generator_single.
  unfold uniform_method. rewrite HNb.
  pose proof (draw_doubles_length (Z.to_nat N) st2) as Hdl.
  pose proof (draw_doubles_range (Z.to_nat N) st2) as Hdr.
  destruct (draw_doubles (Z.to_nat N) st2) as [d st3].
  simpl in Hdl, Hdr. cbv beta iota zeta.
  set (yerr := map (fun ui => lo + (hi - lo) * ui) d).
  assert (Hel : length yerr = Z.to_nat N).
  { unfold yerr. now rewrite length_map. }
  assert (Hepos : Forall (fun e => 0 <= e) yerr).
  { pose proof (uniform_values_range lo hi d Hdr) as Hr.
    fold yerr in Hr. eapply Forall_impl; [|exact Hr].
    intros e [He _]. simpl in He.
    unfold Rmin in He. destruct (Rle_dec lo hi); lra. }
  (* rstate.normal(y, yerr) *)
  rewrite bind_with_generator_single.
  unfold normal_method.
  rewrite (no_negative_scale (arg_values (Array yerr)) Hepos).
  unfold broadcast_arg, broadcast2.
  replace (Nat.eqb (length y) (length yerr)) with true
    by (symmetry; apply Nat.eqb_eq; congruence).
  pose proof (draw_normals_length (combine y yerr) st3) as Hol.
  destruct (draw_normals (combine y yerr) st3) as [yobs st4].
  simpl in Hol. cbv beta iota zeta.
  exists u, d, yobs, st4.
  split; [reflexivity |].
  repeat split; try assumption.
  rewrite Hol, length_combine, Hyl', Hel. apply Nat.min_id.
Qed.

(** The successful run on any heap: the arrays are those of the run on
    the empty heap, and the heap gains the new generator object. *)
Lemma gen_mock_data_returns (seed : Z) (m b s lo hi : R) (N : Z) (h : heap) :
  (0 <= seed <= 4294967295)%Z -> (0 <= N)%Z ->
  0 <= s -> 0 <= lo -> 0 <= hi ->
  exists (u d yobs : list R) (st : gen_state),
    gen_mock_data seed m b s [lo; hi] N h
    = (Ok (np_sort (map (fun ui => 3 * ui) u), yobs,
           map (fun ui => lo + (hi - lo) * ui) d), h ++ [st])
    /\ length u = Z.to_nat N /\ Forall (fun e => 0 <= e < 1) u
    /\ length d = Z.to_nat N /\ Forall (fun e => 0 <= e < 1) d
    /\ length yobs = Z.to_nat N.
Proof.
  intros Hseed HN Hs Hlo Hhi.
  destruct (gen_mock_data_run seed m b s lo hi N Hseed HN Hs Hlo Hhi)
    as (u & d & yobs & st & Hrun & Hrest).
  exists u, d, yobs, st. split; [|exact Hrest].
  rewrite gen_mock_data_frame, Hrun. reflexivity.
Qed.

(** X1. A seed outside [0 .. 2^32 - 1] is refused by [RandomState] with
    [ValueError], whatever the other arguments; no generator is created. *)
Lemma gen_mock_data_bad_seed (seed : Z) (m b s : R) (unc : list R) (N : Z)
  (h : heap) :
  (seed < 0 \/ 4294967295 < seed)%Z ->
  gen_mock_data seed m b s unc N h = (Raise ValueError, h).
Proof.
  intros Hseed. unfold gen_mock_data, bind, RandomState.
  replace ((0 <=? seed) && (seed <=? 4294967295))%Z with false; [reflexivity|].
  symmetry. apply andb_false_iff.
  destruct Hseed; [left; apply Z.leb_gt | right; apply Z.leb_gt]; lia.
Qed.

(** C7. For every seed that [RandomState] accepts and every count
    [N >= 1] (with a non-negative scatter [s] and non-negative bounds in
    [unc], as the defaults are), [gen_mock_data] returns three arrays
    [(x, yobs, yerr)] that all have length exactly [N]: they satisfy the
    DataSet invariant. *)
Theorem gen_mock_data_lengths
  (seed : Z) (m b s lo hi : R) (N : Z) (h : heap) :
  (0 <= seed <= 4294967295)%Z -> (1 <= N)%Z ->
  0 <= s -> 0 <= lo -> 0 <= hi ->
  exists (x yobs yerr : list R) (h' : heap),
    gen_mock_data seed m b s [lo; hi] N h = (Ok (x, yobs, yerr), h')
    /\ length x = Z.to_nat N
    /\ length yobs = Z.to_nat N
    /\ length yerr = Z.to_nat N
    /\ DataSet_invariant x yobs yerr.
Proof.
  intros Hseed HN Hs Hlo Hhi.
  destruct (gen_mock_data_returns seed m b s lo hi N h Hseed) as
    (u & d & yobs & st & Hrun & Hul & _ & Hdl & _ & Hol); try assumption; try lia.
  exists (np_sort (map (fun ui => 3 * ui) u)), yobs,
         (map (fun ui => lo + (hi - lo) * ui) d), (h ++ [st]).
  assert (Hx : length (np_sort (map (fun ui => 3 * ui) u)) = Z.to_nat N)
    by now rewrite np_sort_length, length_map.
  assert (He : length (map (fun ui => lo + (hi - lo) * ui) d) = Z.to_nat N)
    by now rewrite length_map.
  split; [exact Hrun|].
  repeat split; try assumption; try congruence.
  rewrite Hx. lia.
Qed.

(** C8. For every accepted seed and every [N >= 0], the array [x] that
    [gen_mock_data] returns is sorted in nondecreasing order and each of
    its elements lies in the half-open interval [[0, 3)]. *)
Theorem gen_mock_data_x_sorted_bounded
  (seed : Z) (m b s lo hi : R) (N : Z) (h : heap) :
  (0 <= seed <= 4294967295)%Z -> (0 <= N)%Z ->
  0 <= s -> 0 <= lo -> 0 <= hi ->
  exists (x yobs yerr : list R) (h' : heap),
    gen_mock_data seed m b s [lo; hi] N h = (Ok (x, yobs, yerr), h')
    /\ StronglySorted Rle x
    /\ Forall (fun xi => 0 <= xi < 3) x.
Proof.
  intros Hseed HN Hs Hlo Hhi.
  destruct (gen_mock_data_returns seed m b s lo hi N h Hseed HN Hs Hlo Hhi)
    as (u & d & yobs & st & Hrun & _ & Hur & _).
  exists (np_sort (map (fun ui => 3 * ui) u)), yobs,
         (map (fun ui => lo + (hi - lo) * ui) d), (h ++ [st]).
  split; [exact Hrun|]. split.
  - apply np_sort_sorted.
  - apply np_sort_Forall. apply Forall_map.
    eapply Forall_impl; [|exact Hur].
    intros e He; simpl in He |- *. lra.
Qed.

(** C9. For an uncertainty range [unc = [lo, hi]] with [0 < lo <= hi],
    every measurement error that [gen_mock_data] returns satisfies
    [lo <= yerr_i <= hi]; so every [yerr_i] is strictly positive (as with
    the default range [[0.2, 0.6]]), and the divisors [yerr_i] of [chi2]
    and [yerr_i^2 + s'^2] of [negloglike] are never zero, whatever the
    scatter [s']. *)
Theorem gen_mock_data_yerr_range
  (seed : Z) (m b s lo hi : R) (N : Z) (h : heap) :
  (0 <= seed <= 4294967295)%Z -> (0 <= N)%Z ->
  0 <= s -> 0 < lo -> lo <= hi ->
  exists (x yobs yerr : list R) (h' : heap),
    gen_mock_data seed m b s [lo; hi] N h = (Ok (x, yobs, yerr), h')
    /\ Forall (fun e => lo <= e <= hi) yerr
    /\ Forall (fun e => 0 < e /\ e <> 0
                        /\ forall s' : R, e ^ 2 + s' ^ 2 <> 0) yerr.
Proof.
  intros Hseed HN Hs Hlo Hhi.
  destruct (gen_mock_data_returns seed m b s lo hi N h Hseed HN Hs)
    as (u & d & yobs & st & Hrun & _ & _ & _ & Hdr & _); try lra.
  exists (np_sort (map (fun ui => 3 * ui) u)), yobs,
         (map (fun ui => lo + (hi - lo) * ui) d), (h ++ [st]).
  split; [exact Hrun|].
  assert (Hrange : Forall (fun e => lo <= e <= hi)
                          (map (fun ui => lo + (hi - lo) * ui) d)).
  { eapply Forall_impl; [|exact (uniform_values_range lo hi d Hdr)].
    intros e; simpl. rewrite Rmin_left, Rmax_right by exact Hhi. tauto. }
  split; [exact Hrange|].
  eapply Forall_impl; [|exact Hrange].
  intros e [He _]; simpl. repeat split; try lra.
  intros s'. nra.
Qed.

(** C10. [gen_mock_data] is deterministic in its arguments and isolated
    from every generator that exists when it is called, NumPy's global
    one included: what it returns does not depend on the heap it is run
    in, and it leaves every object of that heap as it was (it only adds
    its own [RandomState]). *)
Theorem gen_mock_data_deterministic_isolated
  (seed : Z) (m b s : R) (unc : list R) (N : Z) (h1 h2 : heap) :
  fst (gen_mock_data seed m b s unc N h1)
  = fst (gen_mock_data seed m b s unc N h2)
  /\ exists fresh : heap,
       snd (gen_mock_data seed m b s unc N h1) = h1 ++ fresh.
Proof.
  split.
  - rewrite (gen_mock_data_frame seed m b s unc N h1).
    rewrite (gen_mock_data_frame seed m b s unc N h2). reflexivity.
  - rewrite (gen_mock_data_frame seed m b s unc N h1). simpl.
    now eexists.
Qed.

End MockData.

(** ** The objective functions *)

Section Objectives.

Context {G : BitGenerator}.

(** *** Arithmetic of the array operations *)

Lemma np_vsum_finite {A : Type} (f : A -> value) (g : A -> R) (l : list A) :
  Forall (fun a => f a = Finite (g a)) l ->
  np_vsum (map f l) = Finite (np_sum (map g l)).
Proof.
  unfold np_vsum, np_sum.
  induction 1 as [|a l Ha _ IH]; simpl.
  - reflexivity.
  - now rewrite Ha, IH.
Qed.

Lemma np_sum_Sigma (l : list R) :
  np_sum l = Sigma (length l) (fun i => nth i l 0).
Proof.
  unfold np_sum.
  induction l as [|a l IH]; simpl.
  - reflexivity.
  - now rewrite IH.
Qed.

Lemma Sigma_ext (n : nat) (f g : nat -> R) :
  (forall i, (i < n)%nat -> f i = g i) -> Sigma n f = Sigma n g.
Proof.
  revert f g; induction n as [|n IH]; intros f g Hfg; simpl.
  - reflexivity.
  - rewrite (Hfg O) by lia. f_equal.
    apply IH. intros i Hi. apply Hfg. lia.
Qed.

Lemma map2_length {A B C : Type} (f : A -> B -> C) (l1 : list A) (l2 : list B) :
  length l1 = length l2 -> length (map2 f l1 l2) = length l1.
Proof.
  revert l2; induction l1 as [|a l1 IH]; intros [|b l2] H; simpl in *;
    try discriminate; auto.
Qed.

Lemma map2_nth {A B C : Type} (f : A -> B -> C) (l1 : list A) (l2 : list B)
  (da : A) (db : B) (dc : C) (i : nat) :
  length l1 = length l2 -> (i < length l1)%nat ->
  nth i (map2 f l1 l2) dc = f (nth i l1 da) (nth i l2 db).
Proof.
  revert l2 i; induction l1 as [|a l1 IH]; intros [|b l2] i H Hi;
    simpl in *; try discriminate; try lia.
  destruct i as [|i]; [reflexivity|].
  apply IH; lia.
Qed.

Lemma map2_combine {A B C : Type} (f : A -> B -> C) (l1 : list A) (l2 : list B) :
  map2 f l1 l2 = map (fun ab => f (fst ab) (snd ab)) (combine l1 l2).
Proof.
  revert l2; induction l1 as [|a l1 IH]; intros [|b l2]; simpl; auto.
  now rewrite IH.
Qed.

(** *** The checks *)

Lemma same_shape_ok (a b : list R) (h : heap) :
  length a = length b -> same_shape a b h = (Ok tt, h).
Proof.
  intros H. unfold same_shape.
  now replace (Nat.eqb (length a) (length b)) with true
    by (symmetry; now apply Nat.eqb_eq).
Qed.

Lemma bind_ok {A B : Type} (c : M A) (k : A -> M B) (a : A) (h h' : heap) :
  c h = (Ok a, h') -> bind c k h = k a h'.
Proof. intros H. unfold bind. now rewrite H. Qed.

Lemma bind_raise {A B : Type} (c : M A) (k : A -> M B) (e : exn)
  (h h' : heap) :
  c h = (Raise e, h') -> bind c k h = (Raise e, h').
Proof. intros H. unfold bind. now rewrite H. Qed.

(** *** [neglogpost] *)

(** C1. Whatever the two functions [negloglike] and [neglogprior]
    compute, when they return the values [l] and [p] at a parameter
    vector [(m, b, s)], [neglogpost] returns exactly [l + p] there. *)
Theorem neglogpost_is_sum
  (negloglike_f : list R -> list R -> list R -> list R -> M value)
  (neglogprior_f : list R -> list R -> list R -> M value)
  (m b s : R) (x y ye mean std : list R) (l p : value) (h h1 h2 : heap) :
  neglogprior_f [m; b; s] mean std h = (Ok p, h1) ->
  negloglike_f [m; b; s] x y ye h1 = (Ok l, h2) ->
  neglogpost negloglike_f neglogprior_f [m; b; s] x y ye mean std h
  = (Ok (vadd l p), h2).
Proof.
  intros Hp Hl. unfold neglogpost.
  rewrite (bind_ok _ _ _ _ _ Hp), (bind_ok _ _ _ _ _ Hl).
  unfold ret. do 2 f_equal.
  destruct l as [l|], p as [p|]; simpl; try reflexivity.
  f_equal. ring.
Qed.

(** An exception of either function is the exception of [neglogpost]. *)
Lemma neglogpost_raises_prior
  (negloglike_f : list R -> list R -> list R -> list R -> M value)
  (neglogprior_f : list R -> list R -> list R -> M value)
  (m b s : R) (x y ye mean std : list R) (e : exn) (h h1 : heap) :
  neglogprior_f [m; b; s] mean std h = (Raise e, h1) ->
  neglogpost negloglike_f neglogprior_f [m; b; s] x y ye mean std h
  = (Raise e, h1).
Proof. intros Hp. unfold neglogpost. now rewrite (bind_raise _ _ _ _ _ Hp). Qed.

Lemma neglogpost_raises_like
  (negloglike_f : list R -> list R -> list R -> list R -> M value)
  (neglogprior_f : list R -> list R -> list R -> M value)
  (m b s : R) (x y ye mean std : list R) (p : value) (e : exn)
  (h h1 h2 : heap) :
  neglogprior_f [m; b; s] mean std h = (Ok p, h1) ->
  negloglike_f [m; b; s] x y ye h1 = (Raise e, h2) ->
  neglogpost negloglike_f neglogprior_f [m; b; s] x y ye mean std h
  = (Raise e, h2).
Proof.
  intros Hp Hl. unfold neglogpost.
  now rewrite (bind_ok _ _ _ _ _ Hp), (bind_raise _ _ _ _ _ Hl).
Qed.

(** *** [negloglike] *)

Lemma vadd_NonFinite_r (v : value) : vadd v NonFinite = NonFinite.
Proof. now destruct v. Qed.

Lemma map_nth_in {A : Type} (f : A -> R) (l : list A) (d : A) (i : nat) :
  (i < length l)%nat -> nth i (map f l) 0 = f (nth i l d).
Proof.
  intros Hi. rewrite (nth_indep _ 0 (f d)) by now rewrite length_map.
  apply map_nth.
Qed.

Lemma likelihood_terms_finite (resid var : list R) :
  Forall (fun v => 0 < v) var ->
  np_vsum (map2 (fun r v => vadd (np_divide (r ^ 2) v) (np_log (2 * PI * v)))
                resid var)
  = Finite (np_sum (map2 (fun r v => r ^ 2 / v + ln (2 * PI * v)) resid var)).
Proof.
  unfold np_vsum, np_sum.
  intros Hvar; revert resid.
  induction Hvar as [|v var Hv _ IH]; intros [|r resid]; simpl;
    try reflexivity.
  rewrite IH. unfold np_divide, np_log.
  destruct (Req_dec_T v 0) as [Hv0|_]; [lra|].
  pose proof PI_RGT_0 as Hpi.
  destruct (Rlt_dec 0 (2 * PI * v)) as [_|Hn]; [reflexivity|].
  exfalso; apply Hn. apply Rmult_lt_0_compat; lra.
Qed.

Lemma np_vsum_vSigma (l : list value) :
  np_vsum l = vSigma (length l) (fun i => nth i l (Finite 0)).
Proof.
  unfold np_vsum.
  induction l as [|a l IH]; simpl.
  - reflexivity.
  - now rewrite IH.
Qed.

Lemma vSigma_ext (n : nat) (f g : nat -> value) :
  (forall i, (i < n)%nat -> f i = g i) -> vSigma n f = vSigma n g.
Proof.
  revert f g; induction n as [|n IH]; intros f g Hfg; simpl.
  - reflexivity.
  - rewrite (Hfg O) by lia. f_equal.
    apply IH. intros i Hi. apply Hfg. lia.
Qed.

Lemma vneg_vscale_half (v : value) :
  vneg (vscale (- (1 / 2)) v) = vscale (1 / 2) v.
Proof.
  destruct v as [r|]; simpl; [|reflexivity].
  f_equal. now rewrite Ropp_mult_distr_l, Ropp_involutive.
Qed.

(** What [negloglike] returns on index-aligned arrays, as the array
    expression computes it in double arithmetic. *)
Lemma negloglike_returns (m b s : R) (x y ye : list R) (h : heap) :
  length x = length y -> length y = length ye ->
  negloglike [m; b; s] x y ye h
  = (Ok (vscale (1 / 2)
          (np_vsum (map2 (fun r v => vadd (np_divide (r ^ 2) v)
                                          (np_log (2 * PI * v)))
                         (map2 Rminus y (map (fun xi => m * xi + b) x))
                         (map (fun e => e ^ 2 + s ^ 2) ye)))), h).
Proof.
  intros Hxy Hye. unfold negloglike.
  rewrite (bind_ok _ _ tt h h) by (apply same_shape_ok; now rewrite length_map).
  rewrite (bind_ok _ _ tt h h) by (now apply same_shape_ok).
  unfold ret. now rewrite vneg_vscale_half.
Qed.

(** Its value where no variance is zero. *)
Lemma negloglike_value (m b s : R) (x y ye : list R) (h : heap) :
  length x = length y -> length y = length ye ->
  Forall (fun e => e ^ 2 + s ^ 2 <> 0) ye ->
  negloglike [m; b; s] x y ye h
  = (Ok (Finite (1 / 2 *
       np_sum (map2 (fun r v => r ^ 2 / v + ln (2 * PI * v))
                    (map2 Rminus y (map (fun xi => m * xi + b) x))
                    (map (fun e => e ^ 2 + s ^ 2) ye)))), h).
Proof.
  intros Hxy Hye Hv.
  rewrite negloglike_returns by assumption.
  rewrite likelihood_terms_finite; [reflexivity|].
  apply Forall_map. eapply Forall_impl; [|exact Hv].
  intros e He; simpl in He |- *.
  assert (0 <= e ^ 2 + s ^ 2) by nra. lra.
Qed.

(** C2. For every parameter vector [(m, b, s)] and every dataset of
    index-aligned observations, [negloglike] returns
    0.5 * sum over i of ((y_i - (m x_i + b))^2 / v_i + ln(2 pi v_i)),
    where [v_i = sigma_i^2 + s^2]: as evaluated in double arithmetic on
    every such dataset, and as the real number that the formula denotes
    when no [v_i] is zero. *)
Theorem negloglike_formula
  (m b s : R) (x y ye : list R) (h : heap) :
  length x = length y -> length y = length ye ->
  negloglike [m; b; s] x y ye h
  = (Ok (vscale (1 / 2)
       (vSigma (length x) (fun i =>
          let v_i := nth i ye 0 ^ 2 + s ^ 2 in
          vadd (np_divide ((nth i y 0 - (m * nth i x 0 + b)) ^ 2) v_i)
               (np_log (2 * PI * v_i))))), h)
  /\ (Forall (fun e => e ^ 2 + s ^ 2 <> 0) ye ->
      negloglike [m; b; s] x y ye h
      = (Ok (Finite (1 / 2 *
           Sigma (length x) (fun i =>
             let v_i := nth i ye 0 ^ 2 + s ^ 2 in
             (nth i y 0 - (m * nth i x 0 + b)) ^ 2 / v_i
             + ln (2 * PI * v_i)))), h)).
Proof.
  intros Hxy Hye.
  set (ypred := map (fun xi => m * xi + b) x).
  set (var := map (fun e => e ^ 2 + s ^ 2) ye).
  assert (Hrl : length (map2 Rminus y ypred) = length x).
  { rewrite map2_length; [congruence|]. unfold ypred. now rewrite length_map. }
  assert (Hvl : length var = length x).
  { unfold var. rewrite length_map. congruence. }
  assert (Hnth : forall i, (i < length x)%nat ->
            nth i (map2 Rminus y ypred) 0 = nth i y 0 - (m * nth i x 0 + b)
            /\ nth i var 0 = nth i ye 0 ^ 2 + s ^ 2).
  { intros i Hi. split.
    - rewrite (map2_nth _ _ _ 0 0 0);
        [| unfold ypred; rewrite length_map; congruence | congruence].
      unfold ypred.
      now rewrite (map_nth_in (fun xi => m * xi + b) x 0) by exact Hi.
    - unfold var.
      now rewrite (map_nth_in (fun e => e ^ 2 + s ^ 2) ye 0) by congruence. }
  split.
  - rewrite negloglike_returns by assumption.
    fold ypred var. do 3 f_equal.
    rewrite np_vsum_vSigma, map2_length, Hrl by congruence.
    apply vSigma_ext. intros i Hi.
    rewrite (map2_nth _ _ _ 0 0 (Finite 0)) by congruence.
    destruct (Hnth i Hi) as [-> ->]. reflexivity.
  - intros Hv.
    rewrite negloglike_value by assumption.
    fold ypred var. do 4 f_equal.
    rewrite np_sum_Sigma, map2_length, Hrl by congruence.
    apply Sigma_ext. intros i Hi.
    rewrite (map2_nth _ _ _ 0 0 0) by congruence.
    destruct (Hnth i Hi) as [-> ->]. reflexivity.
Qed.

(** Where a variance is zero, the formula has no finite value and
    [negloglike] returns a non-finite double without raising. *)
Lemma negloglike_zero_variance (m b : R) (x y ye : list R) (h : heap) :
  length x = length y -> length y = length ye ->
  In 0 ye ->
  negloglike [m; b; 0] x y ye h = (Ok NonFinite, h).
Proof.
  intros Hxy Hye Hin. unfold negloglike.
  rewrite (bind_ok _ _ tt h h) by (apply same_shape_ok; now rewrite length_map).
  rewrite (bind_ok _ _ tt h h) by (now apply same_shape_ok).
  unfold ret. do 2 f_equal.
  assert (Hl : length (map2 Rminus y (map (fun xi => m * xi + b) x))
               = length ye).
  { rewrite map2_length; [congruence | now rewrite length_map]. }
  generalize dependent (map2 Rminus y (map (fun xi => m * xi + b) x)).
  clear Hxy Hye. intros resid Hl.
  enough (Hs : np_vsum (map2 (fun r v => vadd (np_divide (r ^ 2) v)
                                              (np_log (2 * PI * v)))
                             resid (map (fun e => e ^ 2 + 0 ^ 2) ye))
               = NonFinite) by now rewrite Hs.
  revert resid Hl. unfold np_vsum.
  induction ye as [|e ye IH]; intros [|r resid] Hl; simpl in *;
    try contradiction; try discriminate.
  destruct Hin as [He|Hin].
  - subst e. unfold np_divide.
    destruct (Req_dec_T (0 * (0 * 1) + 0 * (0 * 1)) 0) as [_|Hn];
      [reflexivity | exfalso; apply Hn; ring].
  - rewrite IH by (auto; lia).
    apply vadd_NonFinite_r.
Qed.

(** *** [chi2] and [loss] *)




(** The value of [chi2] on positive measurement errors. *)
Lemma chi2_value (m b : R) (x y ye : list R) (h : heap) :
  length x = length y -> length y = length ye ->
  Forall (fun e => 0 < e) ye ->
  chi2 [m; b] x y ye h
  = (Ok (Finite (np_sum (map (fun r => r ^ 2)
                    (map2 Rdiv (map2 Rminus y (map (fun xi => m * xi + b) x))
                          ye)))), h).
Proof.
  intros Hxy Hye Hpos. unfold chi2.
  rewrite (bind_ok _ _ tt h h) by (apply same_shape_ok; now rewrite length_map).
  rewrite (bind_ok _ _ tt h h) by (now apply same_shape_ok).
  unfold ret. do 2 f_equal.
  rewrite (map2_combine np_divide), (map2_combine Rdiv), !map_map.
  apply np_vsum_finite. apply Forall_forall. intros [r e] Hin.
  apply in_combine_r in Hin.
  rewrite Forall_forall in Hpos. specialize (Hpos e Hin).
  cbn [fst snd]. unfold np_divide.
  destruct (Req_dec_T e 0) as [He|_]; [lra | reflexivity].
Qed.

Lemma np_power_abs_2 (r : R) : np_power (Rabs r) 2 = Finite (r ^ 2).
Proof.
  unfold np_power.
  destruct (Rlt_dec 0 (Rabs r)) as [Hpos|Hzero].
  - f_equal. replace 2 with (INR 2) by (simpl; lra).
    rewrite Rpower_pow by exact Hpos. apply pow2_abs.
  - assert (Hr : r = 0).
    { destruct (Req_dec r 0) as [E|E]; [exact E|].
      exfalso; apply Hzero. now apply Rabs_pos_lt. }
    subst r.
    destruct (Rlt_dec 2 0); [lra|].
    destruct (Rlt_dec 0 2); [|lra].
    f_equal. ring.
Qed.

Lemma map2_div_ones (d ye : list R) :
  length d = length ye -> Forall (fun e => e = 1) ye ->
  map2 Rdiv d ye = d.
Proof.
  intros Hl Hones; revert d Hl.
  induction Hones as [|e ye He _ IH]; intros [|r d] Hl; simpl in *;
    try discriminate; try reflexivity.
  subst e. rewrite IH by lia. f_equal. field.
Qed.

(** The value of [loss] at [p = 2]. *)
Lemma loss_2_value (m b : R) (x y : list R) (h : heap) :
  length x = length y ->
  loss [m; b] 2 x y h
  = (Ok (Finite (np_sum (map (fun r => r ^ 2)
                    (map2 Rminus y (map (fun xi => m * xi + b) x))))), h).
Proof.
  intros Hxy. unfold loss.
  rewrite (bind_ok _ _ tt h h) by (apply same_shape_ok; now rewrite length_map).
  unfold ret. do 2 f_equal.
  apply np_vsum_finite. apply Forall_forall. intros r _.
  apply np_power_abs_2.
Qed.

(** C4. For every valid dataset in which every [sigma_i = 1] and every
    parameter vector [(m, b)], [chi2] and [loss] with [p = 2] return the
    same finite value. *)
Theorem chi2_unit_sigma_is_loss (m b : R) (x y ye : list R) (h : heap) :
  DataSet_invariant x y ye -> Forall (fun e => e = 1) ye ->
  chi2 [m; b] x y ye h = loss [m; b] 2 x y h
  /\ exists v : R, loss [m; b] 2 x y h = (Ok (Finite v), h).
Proof.
  intros (Hxy & Hye & _) Hones.
  rewrite loss_2_value by exact Hxy.
  split; [|now eexists].
  rewrite chi2_value; try assumption.
  - rewrite map2_div_ones; [reflexivity | | exact Hones].
    rewrite map2_length; [exact Hye | now rewrite length_map].
  - eapply Forall_impl; [|exact Hones].
    intros e He; simpl in He. lra.
Qed.

(** *** [neglogprior] *)

Lemma neglogprior_value (theta mean std : list R) (h : heap) :
  length theta = length mean -> length mean = length std ->
  Forall (fun e => 0 < e) std ->
  neglogprior theta mean std h
  = (Ok (Finite (1 / 2 *
       np_sum (map2 (fun t ms => (t - fst ms) ^ 2 / snd ms ^ 2
                                 + ln (2 * PI * snd ms ^ 2))
                    theta (combine mean std)))), h).
Proof.
  intros Htm Hms Hpos. unfold neglogprior.
  rewrite (bind_ok _ _ tt h h) by (now apply same_shape_ok).
  rewrite (bind_ok _ _ tt h h) by (now apply same_shape_ok).
  unfold ret. do 2 f_equal.
  rewrite !map2_combine.
  rewrite (np_vsum_finite _
             (fun ab => (fst ab - fst (snd ab)) ^ 2 / snd (snd ab) ^ 2
                        + ln (2 * PI * snd (snd ab) ^ 2))).
  - reflexivity.
  - apply Forall_forall. intros [t [mu sd]] Hin.
    apply in_combine_r, in_combine_r in Hin.
    rewrite Forall_forall in Hpos. specialize (Hpos sd Hin).
    cbn [fst snd]. unfold np_divide, np_log.
    destruct (Req_dec_T (sd ^ 2) 0) as [Hz|_]; [nra|].
    pose proof PI_RGT_0 as Hpi.
    destruct (Rlt_dec 0 (2 * PI * sd ^ 2)) as [_|Hn]; [reflexivity|].
    exfalso; apply Hn. apply Rmult_lt_0_compat; nra.
Qed.

(** *** The sign of the scatter *)

Lemma negloglike_scatter_sign (m b s : R) (x y ye : list R) (h : heap) :
  negloglike [m; b; - s] x y ye h = negloglike [m; b; s] x y ye h.
Proof.
  unfold negloglike.
  replace ((- s) ^ 2) with (s ^ 2) by ring.
  reflexivity.
Qed.

Lemma neglogprior_scatter_sign (m b s : R) (mean std : list R) (h : heap) :
  s * nth 2 mean 0 = 0 ->
  neglogprior [m; b; - s] mean std h = neglogprior [m; b; s] mean std h.
Proof.
  intros Hs. unfold neglogprior, bind, same_shape.
  destruct mean as [|m1 [|m2 [|m3 [|m4 mean]]]]; try reflexivity.
  destruct std as [|s1 [|s2 [|s3 [|s4 std]]]]; try reflexivity.
  simpl in Hs. cbn [length Nat.eqb]. unfold ret, raise. cbv beta iota.
  cbn [map2 combine fst snd].
  replace ((- s - m3) ^ 2) with ((s - m3) ^ 2) by nra.
  reflexivity.
Qed.

(** C5 (amended). [negloglike] is unchanged when [s] is replaced by
    [- s]: the scatter enters it only through [s^2].  [neglogprior] and
    [neglogpost] are unchanged when moreover [s] times the prior mean of
    [s] is zero; the prior of the notebook, centred at 0.5, does tell
    [s] from [- s]. *)
Theorem scatter_sign_invariance
  (m b s : R) (x y ye mean std : list R) (h : heap) :
  negloglike [m; b; - s] x y ye h = negloglike [m; b; s] x y ye h
  /\ (s * nth 2 mean 0 = 0 ->
      neglogprior [m; b; - s] mean std h = neglogprior [m; b; s] mean std h
      /\ neglogpost negloglike neglogprior [m; b; - s] x y ye mean std h
         = neglogpost negloglike neglogprior [m; b; s] x y ye mean std h).
Proof.
  split; [apply negloglike_scatter_sign|].
  intros Hs. split; [now apply neglogprior_scatter_sign|].
  unfold neglogpost, bind.
  rewrite (neglogprior_scatter_sign m b s mean std h Hs).
  destruct (neglogprior [m; b; s] mean std h) as [[p|e] h1]; [|reflexivity].
  now rewrite negloglike_scatter_sign.
Qed.

(** *** Determinism and absence of side effects *)

Lemma deterministic_pure_ret {A : Type} (a : A) : deterministic_pure (ret a).
Proof. intros h1 h2. split; reflexivity. Qed.

Lemma deterministic_pure_raise {A : Type} (e : exn) :
  deterministic_pure (@raise G A e).
Proof. intros h1 h2. split; reflexivity. Qed.

Lemma deterministic_pure_bind {A B : Type} (c : M A) (k : A -> M B) :
  deterministic_pure c -> (forall a, deterministic_pure (k a)) ->
  deterministic_pure (bind c k).
Proof.
  intros Hc Hk h1 h2. unfold bind.
  destruct (Hc h1 h2) as [Hr1 Hh1]. destruct (Hc h2 h1) as [_ Hh2].
  destruct (c h1) as [r1 h1'], (c h2) as [r2 h2']; simpl in *. subst.
  destruct r2 as [a|e].
  - apply Hk.
  - split; reflexivity.
Qed.

(** [neglogpost] adds no effect of its own to those of the functions it
    calls. *)
Lemma deterministic_pure_neglogpost
  (negloglike_f : list R -> list R -> list R -> list R -> M value)
  (neglogprior_f : list R -> list R -> list R -> M value)
  (theta x y ye mean std : list R) :
  (forall t a b c, deterministic_pure (negloglike_f t a b c)) ->
  (forall t a b, deterministic_pure (neglogprior_f t a b)) ->
  deterministic_pure
    (neglogpost negloglike_f neglogprior_f theta x y ye mean std).
Proof.
  intros Hl Hp. unfold neglogpost.
  destruct theta as [|m [|b [|s [|c theta]]]];
    try apply deterministic_pure_raise.
  apply deterministic_pure_bind; [apply Hp | intros nlp].
  apply deterministic_pure_bind; [apply Hl | intros nll].
  apply deterministic_pure_ret.
Qed.

End Objectives.

(** ** The objective functions on generated data *)

(** On a dataset that [gen_mock_data] returns for a range
    [0 < lo <= hi], [chi2] and [negloglike] return finite values at every
    parameter vector: no division by zero occurs. *)
Lemma objectives_finite_on_mock_data {G : BitGenerator}
  (seed : Z) (m b s lo hi : R) (N : Z) (h : heap) (m' b' s' : R) :
  (0 <= seed <= 4294967295)%Z -> (0 <= N)%Z ->
  0 <= s -> 0 < lo -> lo <= hi ->
  exists (x yobs yerr : list R) (h' : heap),
    gen_mock_data seed m b s [lo; hi] N h = (Ok (x, yobs, yerr), h')
    /\ (exists v, chi2 [m'; b'] x yobs yerr h' = (Ok (Finite v), h'))
    /\ (exists v, negloglike [m'; b'; s'] x yobs yerr h' = (Ok (Finite v), h')).
Proof.
  intros Hseed HN Hs Hlo Hhi.
  destruct (gen_mock_data_returns seed m b s lo hi N h Hseed HN Hs)
    as (u & d & yobs & st & Hrun & Hul & _ & Hdl & Hdr & Hol); try lra.
  exists (np_sort (map (fun ui => 3 * ui) u)), yobs,
         (map (fun ui => lo + (hi - lo) * ui) d), (h ++ [st]).
  split; [exact Hrun|].
  assert (Hx : length (np_sort (map (fun ui => 3 * ui) u)) = length yobs)
    by now rewrite np_sort_length, length_map, Hul, Hol.
  assert (He : length yobs = length (map (fun ui => lo + (hi - lo) * ui) d))
    by now rewrite length_map, Hdl, Hol.
  assert (Hpos : Forall (fun e => 0 < e)
                        (map (fun ui => lo + (hi - lo) * ui) d)).
  { eapply Forall_impl; [|exact (uniform_values_range lo hi d Hdr)].
    intros e; simpl. rewrite Rmin_left by exact Hhi. lra. }
  split.
  - eexists. now apply chi2_value.
  - eexists. apply negloglike_value; try assumption.
    eapply Forall_impl; [|exact Hpos].
    intros e He'; simpl in He' |- *. nra.
Qed.

(** ** The theorems at concrete inputs

    The runs below use the generator [lcg_generator]; the heap [[42]]
    holds one generator, NumPy's global one. *)

Lemma neglogpost_is_sum_witness :
  exists l p : R,
    neglogprior (G := lcg_generator) [1; 3; 0.5] prior_means prior_stds []
    = (Ok (Finite p), [])
    /\ negloglike (G := lcg_generator) [1; 3; 0.5] [0; 1] [3; 4] [0.2; 0.6] []
       = (Ok (Finite l), [])
    /\ neglogpost (G := lcg_generator) negloglike neglogprior
         [1; 3; 0.5] [0; 1] [3; 4] [0.2; 0.6] prior_means prior_stds []
       = (Ok (Finite (l + p)), []).
Proof.
  assert (Hp : Forall (fun e => 0 < e) prior_stds).
  { unfold prior_stds. repeat (apply Forall_cons; [lra|]). apply Forall_nil. }
  assert (Hv : Forall (fun e => e ^ 2 + 0.5 ^ 2 <> 0) [0.2; 0.6]).
  { repeat (apply Forall_cons; [lra|]). apply Forall_nil. }
  pose proof (neglogprior_value (G := lcg_generator)
                [1; 3; 0.5] prior_means prior_stds [] eq_refl eq_refl Hp) as Ep.
  pose proof (negloglike_value (G := lcg_generator)
                1 3 0.5 [0; 1] [3; 4] [0.2; 0.6] [] eq_refl eq_refl Hv) as El.
  eexists. eexists.
  split; [exact Ep|]. split; [exact El|].
  exact (neglogpost_is_sum (G := lcg_generator) negloglike neglogprior
           1 3 0.5 [0; 1] [3; 4] [0.2; 0.6] prior_means prior_stds
           _ _ [] [] [] Ep El).
Defined.

Lemma negloglike_formula_witness :
  exists v : R,
    negloglike (G := lcg_generator) [1; 3; 0.5] [0; 1] [3; 4] [0.2; 0.6] []
    = (Ok (Finite v), []).
Proof.
  eexists.
  apply (negloglike_formula (G := lcg_generator)
           1 3 0.5 [0; 1] [3; 4] [0.2; 0.6] []).
  - reflexivity.
  - reflexivity.
  - repeat (apply Forall_cons; [lra|]). apply Forall_nil.
Defined.



Lemma chi2_unit_sigma_is_loss_witness :
  chi2 (G := lcg_generator) [1; 3] [0; 1] [3; 5] [1; 1] []
  = loss (G := lcg_generator) [1; 3] 2 [0; 1] [3; 5] []
  /\ exists v : R,
       loss (G := lcg_generator) [1; 3] 2 [0; 1] [3; 5] []
       = (Ok (Finite v), []).
Proof.
  apply (chi2_unit_sigma_is_loss (G := lcg_generator)
           1 3 [0; 1] [3; 5] [1; 1] []).
  - repeat split. simpl. lia.
  - repeat (apply Forall_cons; [reflexivity|]). apply Forall_nil.
Defined.

(** C5, as stated, fails: with the notebook's prior, [neglogprior] and
    [neglogpost] tell [s = -0.5] from [s = 0.5]. *)
Lemma scatter_sign_counterexample :
  neglogprior (G := lcg_generator) [1; 3; - 0.5] prior_means prior_stds []
  <> neglogprior (G := lcg_generator) [1; 3; 0.5] prior_means prior_stds []
  /\ neglogpost (G := lcg_generator) negloglike neglogprior
       [1; 3; - 0.5] [0; 1] [3; 4] [0.2; 0.6] prior_means prior_stds []
     <> neglogpost (G := lcg_generator) negloglike neglogprior
          [1; 3; 0.5] [0; 1] [3; 4] [0.2; 0.6] prior_means prior_stds [].
Proof.
  assert (Hp : Forall (fun e => 0 < e) prior_stds).
  { unfold prior_stds. repeat (apply Forall_cons; [lra|]). apply Forall_nil. }
  assert (Hv : forall s : R, s ^ 2 = 0.5 ^ 2 ->
            Forall (fun e => e ^ 2 + s ^ 2 <> 0) [0.2; 0.6]).
  { intros s Hs. rewrite Hs.
    repeat (apply Forall_cons; [lra|]). apply Forall_nil. }
  pose proof (neglogprior_value (G := lcg_generator)
                [1; 3; - 0.5] prior_means prior_stds [] eq_refl eq_refl Hp)
    as En.
  pose proof (neglogprior_value (G := lcg_generator)
                [1; 3; 0.5] prior_means prior_stds [] eq_refl eq_refl Hp)
    as Ep.
  pose proof (negloglike_value (G := lcg_generator)
                1 3 (- 0.5) [0; 1] [3; 4] [0.2; 0.6] [] eq_refl eq_refl
                (Hv (- 0.5) ltac:(lra))) as Ln.
  pose proof (negloglike_value (G := lcg_generator)
                1 3 0.5 [0; 1] [3; 4] [0.2; 0.6] [] eq_refl eq_refl
                (Hv 0.5 eq_refl)) as Lp.
  split.
  - rewrite En, Ep. intros E. injection E as E. revert E.
    unfold np_sum, prior_means, prior_stds.
    cbn [map2 combine fold_right fst snd].
    lra.
  - unfold neglogpost, bind. rewrite En, Ln, Ep, Lp.
    unfold ret, vneg, vadd.
    intros E. injection E as E. revert E.
    unfold np_sum, prior_means, prior_stds.
    cbn [map map2 combine fold_right fst snd pow].
    replace (- 0.5 * (- 0.5 * 1)) with (0.5 * (0.5 * 1)) by lra.
    lra.
Qed.

Lemma scatter_sign_invariance_witness :
  negloglike (G := lcg_generator) [1; 3; - (0.5)] [0; 1] [3; 4] [0.2; 0.6] []
  = negloglike (G := lcg_generator) [1; 3; 0.5] [0; 1] [3; 4] [0.2; 0.6] []
  /\ neglogprior (G := lcg_generator) [1; 3; - (0.5)] [1; 3; 0] prior_stds []
     = neglogprior (G := lcg_generator) [1; 3; 0.5] [1; 3; 0] prior_stds []
  /\ neglogpost (G := lcg_generator) negloglike neglogprior
       [1; 3; - (0.5)] [0; 1] [3; 4] [0.2; 0.6] [1; 3; 0] prior_stds []
     = neglogpost (G := lcg_generator) negloglike neglogprior
         [1; 3; 0.5] [0; 1] [3; 4] [0.2; 0.6] [1; 3; 0] prior_stds [].
Proof.
  destruct (scatter_sign_invariance (G := lcg_generator)
              1 3 0.5 [0; 1] [3; 4] [0.2; 0.6] [1; 3; 0] prior_stds [])
    as [Hlike Hprior].
  split; [exact Hlike|].
  apply Hprior. simpl. lra.
Defined.

Lemma gen_mock_data_lengths_witness :
  exists (x yobs yerr : list R) (h' : heap),
    gen_mock_data_default (G := lcg_generator) [42%Z]
    = (Ok (x, yobs, yerr), h')
    /\ length x = 50%nat
    /\ length yobs = 50%nat
    /\ length yerr = 50%nat
    /\ DataSet_invariant x yobs yerr.
Proof.
  apply (gen_mock_data_lengths (G := lcg_generator)
           123 0.875 2.523 0.523 0.2 0.6 50 [42%Z]).
  - lia.
  - lia.
  - lra.
  - lra.
  - lra.
Defined.

Lemma gen_mock_data_x_sorted_bounded_witness :
  exists (x yobs yerr : list R) (h' : heap),
    gen_mock_data (G := lcg_generator) 123 0.875 2.523 0.523 [0.2; 0.6] 50
      [42%Z]
    = (Ok (x, yobs, yerr), h')
    /\ StronglySorted Rle x
    /\ Forall (fun xi => 0 <= xi < 3) x.
Proof.
  apply (gen_mock_data_x_sorted_bounded (G := lcg_generator)
           123 0.875 2.523 0.523 0.2 0.6 50 [42%Z]).
  - lia.
  - lia.
  - lra.
  - lra.
  - lra.
Defined.

Lemma gen_mock_data_yerr_range_witness :
  exists (x yobs yerr : list R) (h' : heap),
    gen_mock_data (G := lcg_generator) 123 0.875 2.523 0.523 [0.2; 0.6] 50
      [42%Z]
    = (Ok (x, yobs, yerr), h')
    /\ Forall (fun e => 0.2 <= e <= 0.6) yerr
    /\ Forall (fun e => 0 < e /\ e <> 0
                        /\ forall s' : R, e ^ 2 + s' ^ 2 <> 0) yerr.
Proof.
  apply (gen_mock_data_yerr_range (G := lcg_generator)
           123 0.875 2.523 0.523 0.2 0.6 50 [42%Z]).
  - lia.
  - lia.
  - lra.
  - lra.
  - lra.
Defined.

(** * Further properties of the notebook's code *)

(** ** [gen_mock_data]: every path of a call *)

Section MockDataPaths.

Context {G : BitGenerator}.

Lemma draw_gauss_length (n : nat) (st : gen_state) :
  length (fst (draw_gauss n st)) = n.
Proof.
  revert st; induction n as [|n IH]; intros st; simpl.
  - reflexivity.
  - destruct (next_gauss st) as [g st1].
    specialize (IH st1). destruct (draw_gauss n st1) as [gs st2].
    simpl in *. now rewrite IH.
Qed.

(** [draw_normals] draws one deviate per pair, whatever the pairs hold. *)
Lemma draw_normals_gauss (ps : list (R * R)) (st : gen_state) :
  draw_normals ps st
  = (map2 (fun p g => fst p + snd p * g) ps
          (fst (draw_gauss (length ps) st)),
     snd (draw_gauss (length ps) st)).
Proof.
  revert st; induction ps as [|[loc scale] ps IH]; intros st; simpl.
  - reflexivity.
  - destruct (next_gauss st) as [g st1].
    rewrite (IH st1).
    destruct (draw_gauss (length ps) st1) as [gs st2]. reflexivity.
Qed.

(** The run of [gen_mock_data] on the empty heap, path by path. *)
Lemma gen_mock_data_nil (seed : Z) (m b s : R) (unc : list R) (N : Z) :
  gen_mock_data seed m b s unc N []
  = if ((0 <=? seed) && (seed <=? 4294967295))%Z then
      if (N <? 0)%Z then (Raise ValueError, [seed_state seed])
      else
        let (u, st1) := draw_doubles (Z.to_nat N) (seed_state seed) in
        let x := np_sort (map (fun ui => 3 * ui) u) in
        if Rltb s 0 then (Raise ValueError, [st1])
        else
          let (y, st2) :=
            draw_normals (map (fun ai => (ai, s))
                              (map (fun xi => m * xi + b) x)) st1 in
          match unc with
          | lo :: hi :: _ =>
              let (d, st3) := draw_doubles (Z.to_nat N) st2 in
              let yerr := map (fun ui => lo + (hi - lo) * ui) d in
              if existsb (fun sc => Rltb sc 0) yerr
              then (Raise ValueError, [st3])
              else
                match broadcast2 y yerr with
                | Raise e => (Raise e, [st3])
                | Ok ps =>
                    let (yobs, st4) := draw_normals ps st3 in
                    (Ok (x, yobs, yerr), [st4])
                end
          | _ => (Raise IndexError, [st2])
          end
    else (Raise ValueError, []).
Proof.
  unfold gen_mock_data.
  destruct ((0 <=? seed) && (seed <=? 4294967295))%Z eqn:Hseed.
  - assert (Hs : (0 <= seed <= 4294967295)%Z).
    { apply andb_true_iff in Hseed. destruct Hseed as [H1 H2].
      apply Z.leb_le in H1. apply Z.leb_le in H2. lia. }
    rewrite bind_RandomState_nil by exact Hs. cbv beta.
    rewrite bind_with_generator_single.
    unfold rand_method.
    destruct (N <? 0)%Z eqn:HN; [reflexivity|].
    destruct (draw_doubles (Z.to_nat N) (seed_state seed)) as [u st1].
    cbv beta iota zeta.
    rewrite bind_with_generator_single.
    unfold normal_method at 1. cbn [arg_values existsb].
    rewrite orb_false_r.
    destruct (Rltb s 0); [reflexivity|].
    cbn [broadcast_arg].
    destruct (draw_normals _ st1) as [y st2].
    cbv beta iota zeta.
    rewrite bind_lift.
    destruct unc as [|lo [|hi rest]]; cbn [index nth_error];
      try reflexivity.
    cbv beta iota zeta. rewrite bind_lift.
    cbn [index nth_error]. cbv beta iota zeta.
    rewrite bind_with_generator_single.
    unfold uniform_method. rewrite HN.
    destruct (draw_doubles (Z.to_nat N) st2) as [d st3].
    cbv beta iota zeta.
    rewrite bind_with_generator_single.
    unfold normal_method. cbn [arg_values broadcast_arg].
    destruct (existsb _ _); [reflexivity|].
    destruct (broadcast2 _ _) as [ps|e]; [|reflexivity].
    destruct (draw_normals ps st3) as [yobs st4]. reflexivity.
  - unfold bind, RandomState. rewrite Hseed. reflexivity.
Qed.

Lemma gen_mock_data_on_heap (seed : Z) (m b s : R) (unc : list R) (N : Z)
  (h : heap) (res : result (list R * list R * list R)) (fresh : heap) :
  gen_mock_data seed m b s unc N [] = (res, fresh) ->
  gen_mock_data seed m b s unc N h = (res, h ++ fresh).
Proof. intros H. now rewrite gen_mock_data_frame, H. Qed.

Lemma valid_seed_true (seed : Z) :
  (0 <= seed <= 4294967295)%Z ->
  ((0 <=? seed) && (seed <=? 4294967295))%Z = true.
Proof. intros H. apply andb_true_intro; split; apply Z.leb_le; lia. Qed.

Lemma Rltb_false (a : R) : 0 <= a -> Rltb a 0 = false.
Proof. intros H. unfold Rltb. destruct (Rlt_dec a 0); [lra | reflexivity]. Qed.

Lemma Rltb_true (a : R) : a < 0 -> Rltb a 0 = true.
Proof. intros H. unfold Rltb. destruct (Rlt_dec a 0); [reflexivity | lra]. Qed.

(** The two normal draws of [gen_mock_data], as line plus noise. *)
Lemma line_plus_noise (s : R) (a g ye g' : list R) :
  length a = length g -> length g = length ye -> length ye = length g' ->
  map2 (fun p q => fst p + snd p * q)
       (combine (map2 (fun p q => fst p + snd p * q)
                      (map (fun ai => (ai, s)) a) g) ye) g'
  = map2 Rplus a
         (map2 (fun gi eg => s * gi + fst eg * snd eg) g (combine ye g')).
Proof.
  revert g ye g'.
  induction a as [|a0 a IH]; intros [|g0 g] [|e0 ye] [|q0 g'] H1 H2 H3;
    simpl in *; try discriminate; try reflexivity.
  rewrite IH by lia. f_equal. ring.
Qed.

(** A successful call, in terms of the draws it consumes: [yobs] is the
    line [m x + b] plus a noise that does not involve [m] or [b]. *)
Lemma gen_mock_data_success
  (seed : Z) (m b s lo hi : R) (rest : list R) (N : Z) (h : heap)
  (u g d g' : list R) (st : gen_state) :
  (0 <= seed <= 4294967295)%Z -> (0 <= N)%Z -> 0 <= s ->
  mock_draws seed (Z.to_nat N) = ((u, g, d, g'), st) ->
  Forall (fun e => 0 <= e) (map (fun ui => lo + (hi - lo) * ui) d) ->
  let x := np_sort (map (fun ui => 3 * ui) u) in
  let yerr := map (fun ui => lo + (hi - lo) * ui) d in
  gen_mock_data seed m b s (lo :: hi :: rest) N h
  = (Ok (x,
         map2 Rplus (map (fun xi => m * xi + b) x)
              (map2 (fun gi eg => s * gi + fst eg * snd eg)
                    g (combine yerr g')),
         yerr), h ++ [st])
  /\ length u = Z.to_nat N /\ length g = Z.to_nat N
  /\ length d = Z.to_nat N /\ length g' = Z.to_nat N.
Proof.
  intros Hseed HN Hs Hdraws Hpos x yerr.
  unfold mock_draws in Hdraws.
  pose proof (draw_doubles_length (Z.to_nat N) (seed_state seed)) as Lu.
  destruct (draw_doubles (Z.to_nat N) (seed_state seed)) as [u0 st1] eqn:E1.
  pose proof (draw_gauss_length (Z.to_nat N) st1) as Lg.
  destruct (draw_gauss (Z.to_nat N) st1) as [g0 st2] eqn:E2.
  pose proof (draw_doubles_length (Z.to_nat N) st2) as Ld.
  destruct (draw_doubles (Z.to_nat N) st2) as [d0 st3] eqn:E3.
  pose proof (draw_gauss_length (Z.to_nat N) st3) as Lg'.
  destruct (draw_gauss (Z.to_nat N) st3) as [g0' st4] eqn:E4.
  simpl in Lu, Lg, Ld, Lg'.
  injection Hdraws as -> -> -> -> ->.
  assert (Lx : length x = Z.to_nat N).
  { unfold x. now rewrite np_sort_length, length_map. }
  assert (Le : length yerr = Z.to_nat N).
  { unfold yerr. now rewrite length_map. }
  split; [|repeat split; assumption].
  apply gen_mock_data_on_heap.
  rewrite gen_mock_data_nil, valid_seed_true by exact Hseed.
  replace (N <? 0)%Z with false by (symmetry; apply Z.ltb_ge; lia).
  rewrite E1. cbv beta iota zeta. fold x.
  rewrite Rltb_false by exact Hs.
  rewrite draw_normals_gauss, !length_map, Lx, E2. cbn [fst snd].
  rewrite E3. cbv beta iota zeta. fold yerr.
  rewrite (no_negative_scale yerr Hpos).
  unfold broadcast2.
  rewrite map2_length by (now rewrite !length_map, Lx, Lg).
  rewrite !length_map, Lx, Le, Nat.eqb_refl.
  rewrite draw_normals_gauss, length_combine.
  rewrite map2_length by (now rewrite !length_map, Lx, Lg).
  rewrite !length_map, Lx, Le, Nat.min_id, E4. cbn [fst snd].
  rewrite line_plus_noise;
    [reflexivity | now rewrite length_map, Lx, Lg | congruence | congruence].
Qed.

(** The draws of a call exist, with their lengths. *)
Lemma mock_draws_total (seed : Z) (n : nat) :
  exists (u g d g' : list R) (st : gen_state),
    mock_draws seed n = ((u, g, d, g'), st)
    /\ Forall (fun e => 0 <= e < 1) u /\ Forall (fun e => 0 <= e < 1) d.
Proof.
  unfold mock_draws.
  pose proof (draw_doubles_range n (seed_state seed)) as Ru.
  destruct (draw_doubles n (seed_state seed)) as [u st1].
  destruct (draw_gauss n st1) as [g st2].
  pose proof (draw_doubles_range n st2) as Rd.
  destruct (draw_doubles n st2) as [d st3].
  destruct (draw_gauss n st3) as [g' st4].
  now exists u, g, d, g', st4.
Qed.

Lemma uniform_values_nonneg (lo hi : R) (d : list R) :
  0 <= lo -> 0 <= hi -> Forall (fun e => 0 <= e < 1) d ->
  Forall (fun e => 0 <= e) (map (fun ui => lo + (hi - lo) * ui) d).
Proof.
  intros Hlo Hhi Hd. apply Forall_map.
  eapply Forall_impl; [|exact Hd].
  intros e He; simpl in He |- *. nra.
Qed.

(** *** Refused arguments *)

(** X2. A negative count [N] is refused with [ValueError], whatever the
    other arguments; the generator has been created by then, and nothing
    has been drawn from it. *)
Theorem gen_mock_data_negative_count
  (seed : Z) (m b s : R) (unc : list R) (N : Z) (h : heap) :
  (0 <= seed <= 4294967295)%Z -> (N < 0)%Z ->
  gen_mock_data seed m b s unc N h
  = (Raise ValueError, h ++ [seed_state seed]).
Proof.
  intros Hseed HN. apply gen_mock_data_on_heap.
  rewrite gen_mock_data_nil, valid_seed_true by exact Hseed.
  now replace (N <? 0)%Z with true by (symmetry; apply Z.ltb_lt; lia).
Qed.

(** X3. A negative intrinsic scatter [s] is refused with [ValueError]
    (by [normal]), whatever [m], [b] and [unc] are: [gen_mock_data] does
    not accept the negative [s] that the objective functions admit. *)
Theorem gen_mock_data_negative_scatter
  (seed : Z) (m b s : R) (unc : list R) (N : Z) (h : heap) :
  (0 <= seed <= 4294967295)%Z -> (0 <= N)%Z -> s < 0 ->
  fst (gen_mock_data seed m b s unc N h) = Raise ValueError.
Proof.
  intros Hseed HN Hs.
  rewrite gen_mock_data_frame, gen_mock_data_nil, valid_seed_true
    by exact Hseed.
  replace (N <? 0)%Z with false by (symmetry; apply Z.ltb_ge; lia).
  destruct (draw_doubles (Z.to_nat N) (seed_state seed)) as [u st1].
  cbv beta iota zeta. now rewrite Rltb_true by exact Hs.
Qed.

(** X4. An uncertainty range [unc] with fewer than two elements raises
    [IndexError], once the seed, the count and the scatter have been
    accepted. *)
Theorem gen_mock_data_short_range
  (seed : Z) (m b s : R) (unc : list R) (N : Z) (h : heap) :
  (0 <= seed <= 4294967295)%Z -> (0 <= N)%Z -> 0 <= s ->
  (length unc < 2)%nat ->
  fst (gen_mock_data seed m b s unc N h) = Raise IndexError.
Proof.
  intros Hseed HN Hs Hunc.
  rewrite gen_mock_data_frame, gen_mock_data_nil, valid_seed_true
    by exact Hseed.
  replace (N <? 0)%Z with false by (symmetry; apply Z.ltb_ge; lia).
  destruct (draw_doubles (Z.to_nat N) (seed_state seed)) as [u st1].
  cbv beta iota zeta. rewrite Rltb_false by exact Hs.
  destruct (draw_normals _ st1) as [y st2].
  destruct unc as [|lo [|hi rest]]; simpl in Hunc; try lia; reflexivity.
Qed.

(** X5. With both bounds of [unc] negative and at least one point, every
    drawn measurement error is negative and the call raises [ValueError]
    (the second [normal] refuses the scale). *)
Theorem gen_mock_data_negative_range
  (seed : Z) (m b s lo hi : R) (rest : list R) (N : Z) (h : heap) :
  (0 <= seed <= 4294967295)%Z -> (1 <= N)%Z -> 0 <= s ->
  lo < 0 -> hi < 0 ->
  fst (gen_mock_data seed m b s (lo :: hi :: rest) N h) = Raise ValueError.
Proof.
  intros Hseed HN Hs Hlo Hhi.
  rewrite gen_mock_data_frame, gen_mock_data_nil, valid_seed_true
    by exact Hseed.
  replace (N <? 0)%Z with false by (symmetry; apply Z.ltb_ge; lia).
  destruct (draw_doubles (Z.to_nat N) (seed_state seed)) as [u st1].
  cbv beta iota zeta. rewrite Rltb_false by exact Hs.
  destruct (draw_normals _ st1) as [y st2].
  pose proof (draw_doubles_length (Z.to_nat N) st2) as Ld.
  pose proof (draw_doubles_range (Z.to_nat N) st2) as Rd.
  destruct (draw_doubles (Z.to_nat N) st2) as [d st3].
  simpl in Ld, Rd. cbv beta iota zeta.
  destruct d as [|d0 d]; [simpl in Ld; lia|].
  inversion Rd as [|? ? Hd0 _]; subst.
  cbn [map existsb].
  rewrite Rltb_true by nra. reflexivity.
Qed.

(** *** What a successful call returns *)

(** X6. With [N = 0] the call returns three empty arrays, for any line
    and any range, and draws nothing from its generator. *)
Theorem gen_mock_data_empty
  (seed : Z) (m b s lo hi : R) (rest : list R) (h : heap) :
  (0 <= seed <= 4294967295)%Z -> 0 <= s ->
  gen_mock_data seed m b s (lo :: hi :: rest) 0 h
  = (Ok ([], [], []), h ++ [seed_state seed]).
Proof.
  intros Hseed Hs. apply gen_mock_data_on_heap.
  rewrite gen_mock_data_nil, valid_seed_true by exact Hseed.
  cbn. now rewrite Rltb_false by exact Hs.
Qed.

(** X7. The elements of [unc] after the second are never read: a longer
    list behaves as its first two elements, for all arguments and on
    every path. *)
Theorem gen_mock_data_range_prefix
  (seed : Z) (m b s lo hi : R) (rest : list R) (N : Z) (h : heap) :
  gen_mock_data seed m b s (lo :: hi :: rest) N h
  = gen_mock_data seed m b s [lo; hi] N h.
Proof.
  rewrite (gen_mock_data_frame seed m b s (lo :: hi :: rest)).
  rewrite (gen_mock_data_frame seed m b s [lo; hi]).
  now rewrite !gen_mock_data_nil.
Qed.

(** X8. The abscissas [x] and the measurement errors [yerr] depend on
    the seed, the count and the range only: two calls that differ in the
    line [(m, b)] and in the scatter [s >= 0] return the same [x] and
    the same [yerr]. *)
Theorem gen_mock_data_x_yerr_independent
  (seed : Z) (m b s m' b' s' lo hi : R) (N : Z) (h h0 : heap) :
  (0 <= seed <= 4294967295)%Z -> (0 <= N)%Z ->
  0 <= s -> 0 <= s' -> 0 <= lo -> 0 <= hi ->
  exists (x yerr yobs yobs' : list R) (h1 h2 : heap),
    gen_mock_data seed m b s [lo; hi] N h = (Ok (x, yobs, yerr), h1)
    /\ gen_mock_data seed m' b' s' [lo; hi] N h0 = (Ok (x, yobs', yerr), h2).
Proof.
  intros Hseed HN Hs Hs' Hlo Hhi.
  destruct (mock_draws_total seed (Z.to_nat N))
    as (u & g & d & g' & st & Hd & _ & Rd).
  pose proof (uniform_values_nonneg lo hi d Hlo Hhi Rd) as Hpos.
  destruct (gen_mock_data_success seed m b s lo hi [] N h u g d g' st
              Hseed HN Hs Hd Hpos) as [H1 _].
  destruct (gen_mock_data_success seed m' b' s' lo hi [] N h0 u g d g' st
              Hseed HN Hs' Hd Hpos) as [H2 _].
  do 6 eexists. split; [exact H1 | exact H2].
Qed.

(** X9. The generative model: there are deviates [g] and [g'], fixed by
    the seed and the count alone, such that for every line [(m, b)],
    every scatter [s >= 0] and every range with non-negative bounds the
    call returns [yobs_i = m x_i + b + s g_i + yerr_i g'_i] (over the
    reals).  The noise of the data does not depend on the line. *)
Theorem gen_mock_data_noise_model (seed : Z) (N : Z) :
  (0 <= seed <= 4294967295)%Z -> (0 <= N)%Z ->
  exists g g' : list R,
    length g = Z.to_nat N /\ length g' = Z.to_nat N
    /\ forall (m b s lo hi : R) (h : heap),
       0 <= s -> 0 <= lo -> 0 <= hi ->
       exists (x yobs yerr : list R) (h' : heap),
         gen_mock_data seed m b s [lo; hi] N h = (Ok (x, yobs, yerr), h')
         /\ forall i : nat, (i < Z.to_nat N)%nat ->
              nth i yobs 0
              = m * nth i x 0 + b + s * nth i g 0
                + nth i yerr 0 * nth i g' 0.
Proof.
  intros Hseed HN.
  destruct (mock_draws_total seed (Z.to_nat N))
    as (u & g & d & g' & st & Hd & _ & Rd).
  exists g, g'.
  pose proof (uniform_values_nonneg 0 0 d (Rle_refl 0) (Rle_refl 0) Rd)
    as Hpos0.
  destruct (gen_mock_data_success seed 0 0 0 0 0 [] N [] u g d g' st
              Hseed HN (Rle_refl 0) Hd Hpos0) as (_ & Lu & Lg & Ld & Lg').
  split; [exact Lg|]. split; [exact Lg'|].
  intros m b s lo hi h Hs Hlo Hhi.
  pose proof (uniform_values_nonneg lo hi d Hlo Hhi Rd) as Hpos.
  destruct (gen_mock_data_success seed m b s lo hi [] N h u g d g' st
              Hseed HN Hs Hd Hpos) as [Hrun _].
  do 4 eexists. split; [exact Hrun|].
  intros i Hi.
  set (x := np_sort (map (fun ui => 3 * ui) u)).
  set (yerr := map (fun ui => lo + (hi - lo) * ui) d).
  assert (Lx : length x = Z.to_nat N)
    by (unfold x; now rewrite np_sort_length, length_map).
  assert (Le : length yerr = Z.to_nat N)
    by (unfold yerr; now rewrite length_map).
  assert (Lc : length (combine yerr g') = Z.to_nat N)
    by (rewrite length_combine, Le, Lg'; apply Nat.min_id).
  rewrite (map2_nth _ _ _ 0 0 0);
    [| rewrite length_map, map2_length; congruence
     | rewrite length_map; congruence].
  rewrite (map_nth_in (fun xi => m * xi + b) x 0) by congruence.
  rewrite (map2_nth _ _ _ 0 (0, 0) 0) by congruence.
  rewrite combine_nth by congruence.
  cbn [fst snd]. ring.
Qed.

(** X10. Noise-free data lie on the line: with [s = 0] and
    [unc = [0, 0]] the call returns [yobs_i = m x_i + b] exactly and
    measurement errors that are all zero. *)
Theorem gen_mock_data_noise_free
  (seed : Z) (m b : R) (N : Z) (h : heap) :
  (0 <= seed <= 4294967295)%Z -> (0 <= N)%Z ->
  exists (x : list R) (h' : heap),
    gen_mock_data seed m b 0 [0; 0] N h
    = (Ok (x, map (fun xi => m * xi + b) x, repeat 0 (Z.to_nat N)), h').
Proof.
  intros Hseed HN.
  destruct (mock_draws_total seed (Z.to_nat N))
    as (u & g & d & g' & st & Hd & _ & Rd).
  pose proof (uniform_values_nonneg 0 0 d (Rle_refl 0) (Rle_refl 0) Rd)
    as Hpos.
  destruct (gen_mock_data_success seed m b 0 0 0 [] N h u g d g' st
              Hseed HN (Rle_refl 0) Hd Hpos) as (Hrun & Lu & Lg & Ld & Lg').
  exists (np_sort (map (fun ui => 3 * ui) u)), (h ++ [st]).
  rewrite Hrun. do 2 f_equal.
  assert (Hzero : map (fun ui => 0 + (0 - 0) * ui) d = repeat 0 (Z.to_nat N)).
  { rewrite <- Ld. clear. induction d as [|d0 d IH]; simpl; [reflexivity|].
    rewrite IH. f_equal. ring. }
  rewrite Hzero. f_equal. f_equal.
  assert (Lx : length (np_sort (map (fun ui => 3 * ui) u)) = Z.to_nat N)
    by now rewrite np_sort_length, length_map.
  revert Lx Lg Lg'. generalize (np_sort (map (fun ui => 3 * ui) u)).
  generalize (Z.to_nat N). clear.
  intros n x; revert n g g'.
  induction x as [|x0 x IH]; intros [|n] [|g0 g] [|q0 g'] Lx Lg Lg';
    simpl in *; try discriminate; try reflexivity.
  rewrite (IH n g g') by lia. f_equal. ring.
Qed.

(** X11. The two bounds of [unc] need not be ordered: for non-negative
    bounds every measurement error lies between the smaller and the
    larger one. *)
Theorem gen_mock_data_yerr_between
  (seed : Z) (m b s lo hi : R) (N : Z) (h : heap) :
  (0 <= seed <= 4294967295)%Z -> (0 <= N)%Z ->
  0 <= s -> 0 <= lo -> 0 <= hi ->
  exists (x yobs yerr : list R) (h' : heap),
    gen_mock_data seed m b s [lo; hi] N h = (Ok (x, yobs, yerr), h')
    /\ Forall (fun e => Rmin lo hi <= e <= Rmax lo hi) yerr.
Proof.
  intros Hseed HN Hs Hlo Hhi.
  destruct (gen_mock_data_returns seed m b s lo hi N h Hseed HN Hs Hlo Hhi)
    as (u & d & yobs & st & Hrun & _ & _ & _ & Hdr & _).
  do 4 eexists. split; [exact Hrun|].
  now apply uniform_values_range.
Qed.

End MockDataPaths.

(** ** [neglogpost]: calls and exceptions *)

Section PosteriorCalls.

Context {G : BitGenerator}.

Variable negloglike_f : list R -> list R -> list R -> list R -> M value.
Variable neglogprior_f : list R -> list R -> list R -> M value.

(** X12. A parameter vector that does not have exactly three elements
    makes [neglogpost] raise [ValueError] at the unpacking, before either
    of the two functions is called: the state is left as it was whatever
    those functions would do. *)
Theorem neglogpost_wrong_arity
  (theta x y ye mean std : list R) (h : heap) :
  length theta <> 3%nat ->
  neglogpost negloglike_f neglogprior_f theta x y ye mean std h
  = (Raise ValueError, h).
Proof.
  intros Hlen. unfold neglogpost.
  destruct theta as [|m [|b [|s [|c theta]]]]; try reflexivity.
  now contradiction Hlen.
Qed.

(** X13. [neglogpost] evaluates [neglogprior] first and [negloglike]
    second, in the state the first call leaves.  An exception of
    [neglogprior] is the outcome and [negloglike] is not evaluated;
    otherwise an exception of [negloglike] is the outcome; otherwise the
    sum is returned. *)
Theorem neglogpost_outcome
  (m b s : R) (x y ye mean std : list R) (h h1 h2 : heap)
  (rp rl : result value) :
  neglogprior_f [m; b; s] mean std h = (rp, h1) ->
  negloglike_f [m; b; s] x y ye h1 = (rl, h2) ->
  neglogpost negloglike_f neglogprior_f [m; b; s] x y ye mean std h
  = match rp, rl with
    | Raise e, _ => (Raise e, h1)
    | Ok _, Raise e => (Raise e, h2)
    | Ok p, Ok l => (Ok (vadd l p), h2)
    end.
Proof.
  intros Hp Hl. unfold neglogpost, bind. rewrite Hp.
  destruct rp as [p|e]; [|reflexivity].
  rewrite Hl. destruct rl as [l|e]; [|reflexivity].
  unfold ret. do 2 f_equal.
  destruct l as [l|], p as [p|]; simpl; try reflexivity.
  f_equal. ring.
Qed.

End PosteriorCalls.

(** ** The prior covariance of code cell 64 *)

Lemma np_diag_length (d : list R) : length (np_diag d) = length d.
Proof.
  induction d as [|a d IH]; simpl; [reflexivity|].
  now rewrite length_map, IH.
Qed.

Lemma nth_repeat_zero (n j : nat) : nth j (repeat 0 n) 0 = 0.
Proof.
  revert j; induction n as [|n IH]; intros [|j]; simpl; auto.
Qed.

(** [np.diag]: the diagonal holds the vector, every other entry is zero. *)
Lemma entry_np_diag (d : list R) (i j : nat) :
  entry (np_diag d) i j = if Nat.eqb i j then nth i d 0 else 0.
Proof.
  unfold entry. revert i j.
  induction d as [|a d IH]; intros i j.
  - simpl. destruct i, j; simpl; try reflexivity;
      destruct (Nat.eqb _ _); reflexivity.
  - destruct i as [|i].
    + simpl. destruct j as [|j]; [reflexivity|].
      apply nth_repeat_zero.
    + cbn [np_diag nth].
      destruct (Nat.lt_ge_cases i (length (np_diag d))) as [Hi|Hi].
      * rewrite (nth_indep _ [] (0 :: [])) by now rewrite length_map.
        rewrite (map_nth (cons 0)).
        destruct j as [|j]; [reflexivity|].
        cbn [nth Nat.eqb]. apply IH.
      * rewrite (nth_overflow (map (cons 0) (np_diag d)) [])
          by now rewrite length_map.
        rewrite np_diag_length in Hi.
        rewrite (nth_overflow d) by exact Hi.
        destruct j; simpl; [reflexivity|].
        destruct (Nat.eqb i j); reflexivity.
Qed.

Lemma dot_zeros (n : nat) (z : list R) : dot (repeat 0 n) z = 0.
Proof.
  unfold dot, np_sum.
  revert z; induction n as [|n IH]; intros [|z0 z]; simpl;
    try reflexivity.
  rewrite IH. ring.
Qed.

Lemma quadratic_form_np_diag (d z : list R) :
  length z = length d ->
  quadratic_form (np_diag d) z
  = np_sum (map2 (fun di zi => di * zi ^ 2) d z).
Proof.
  revert z; induction d as [|a d IH]; intros [|z0 z] Hl;
    simpl in Hl; try discriminate.
  - reflexivity.
  - injection Hl as Hl. specialize (IH z Hl).
    unfold quadratic_form in *. cbn [np_diag map].
    rewrite map_map.
    rewrite (map_ext (fun row => dot (0 :: row) (z0 :: z))
                     (fun row => dot row z))
      by (intros row; unfold dot, np_sum; simpl; ring).
    unfold dot at 1. cbn [map2 np_sum fold_right].
    unfold dot at 1. cbn [map2 np_sum fold_right].
    fold (np_sum (map2 Rmult (repeat 0 (length d)) z)).
    fold (dot (repeat 0 (length d)) z). rewrite dot_zeros.
    fold (np_sum (map2 Rmult z (map (fun row => dot row z) (np_diag d)))).
    fold (dot z (map (fun row => dot row z) (np_diag d))).
    rewrite IH. cbn [map2 np_sum fold_right]. unfold np_sum. ring.
Qed.

(** X15. The covariance [np.diag(prior_stds**2)] that code cell 64 hands
    to [multivariate_normal] is, for every vector of standard
    deviations, a symmetric matrix whose quadratic form is
    [sum_i std_i^2 z_i^2]: it is positive semi-definite, as the sampler
    requires. *)
Theorem prior_covariance_symmetric_psd (std z : list R) :
  length z = length std ->
  (forall i j : nat,
     entry (prior_covariance std) i j = entry (prior_covariance std) j i)
  /\ quadratic_form (prior_covariance std) z
     = np_sum (map2 (fun sd zi => sd ^ 2 * zi ^ 2) std z)
  /\ 0 <= quadratic_form (prior_covariance std) z.
Proof.
  intros Hl. unfold prior_covariance.
  assert (Hq : quadratic_form (np_diag (np_square std)) z
               = np_sum (map2 (fun sd zi => sd ^ 2 * zi ^ 2) std z)).
  { rewrite quadratic_form_np_diag
      by (unfold np_square; now rewrite length_map).
    f_equal. unfold np_square. clear.
    revert z; induction std as [|s0 std IH]; intros [|z0 z]; simpl;
      try reflexivity.
    now rewrite IH. }
  split; [|split; [exact Hq|]].
  - intros i j. rewrite !entry_np_diag.
    destruct (Nat.eqb i j) eqn:E.
    + apply Nat.eqb_eq in E. subst j. now rewrite Nat.eqb_refl.
    + rewrite Nat.eqb_sym, E. reflexivity.
  - rewrite Hq. clear. unfold np_sum.
    revert z; induction std as [|s0 std IH]; intros [|z0 z]; simpl;
      try lra.
    specialize (IH z). simpl in IH. nra.
Qed.

(** ** The further properties at concrete inputs *)

Lemma gen_mock_data_bad_seed_witness :
  gen_mock_data (G := lcg_generator) (-1) 0.875 2.523 0.523 [0.2; 0.6] 50
    [42%Z]
  = (Raise ValueError, [42%Z]).
Proof.
  apply (gen_mock_data_bad_seed (G := lcg_generator)
           (-1) 0.875 2.523 0.523 [0.2; 0.6] 50 [42%Z]).
  left. lia.
Defined.

Lemma gen_mock_data_negative_count_witness :
  gen_mock_data (G := lcg_generator) 123 0.875 2.523 0.523 [0.2; 0.6] (-5)
    [42%Z]
  = (Raise ValueError, [42%Z; 123%Z]).
Proof.
  apply (gen_mock_data_negative_count (G := lcg_generator)
           123 0.875 2.523 0.523 [0.2; 0.6] (-5) [42%Z]).
  - lia.
  - lia.
Defined.

Lemma gen_mock_data_negative_scatter_witness :
  fst (gen_mock_data (G := lcg_generator) 123 0.875 2.523 (-0.523)
         [0.2; 0.6] 50 [42%Z])
  = Raise ValueError.
Proof.
  apply (gen_mock_data_negative_scatter (G := lcg_generator)
           123 0.875 2.523 (-0.523) [0.2; 0.6] 50 [42%Z]).
  - lia.
  - lia.
  - lra.
Defined.

Lemma gen_mock_data_short_range_witness :
  fst (gen_mock_data (G := lcg_generator) 123 0.875 2.523 0.523 [0.2] 50
         [42%Z])
  = Raise IndexError.
Proof.
  apply (gen_mock_data_short_range (G := lcg_generator)
           123 0.875 2.523 0.523 [0.2] 50 [42%Z]).
  - lia.
  - lia.
  - lra.
  - simpl. lia.
Defined.

Lemma gen_mock_data_negative_range_witness :
  fst (gen_mock_data (G := lcg_generator) 123 0.875 2.523 0.523
         [-0.6; -0.2] 50 [42%Z])
  = Raise ValueError.
Proof.
  apply (gen_mock_data_negative_range (G := lcg_generator)
           123 0.875 2.523 0.523 (-0.6) (-0.2) [] 50 [42%Z]).
  - lia.
  - lia.
  - lra.
  - lra.
  - lra.
Defined.

Lemma gen_mock_data_empty_witness :
  gen_mock_data (G := lcg_generator) 123 0.875 2.523 0.523 [0.2; 0.6] 0
    [42%Z]
  = (Ok ([], [], []), [42%Z; 123%Z]).
Proof.
  apply (gen_mock_data_empty (G := lcg_generator)
           123 0.875 2.523 0.523 0.2 0.6 [] [42%Z]).
  - lia.
  - lra.
Defined.

Lemma gen_mock_data_x_yerr_independent_witness :
  exists (x yerr yobs yobs' : list R) (h1 h2 : heap),
    gen_mock_data (G := lcg_generator) 123 0.875 2.523 0.523 [0.2; 0.6] 50
      [42%Z]
    = (Ok (x, yobs, yerr), h1)
    /\ gen_mock_data (G := lcg_generator) 123 2 (-1) 0 [0.2; 0.6] 50 []
       = (Ok (x, yobs', yerr), h2).
Proof.
  apply (gen_mock_data_x_yerr_independent (G := lcg_generator)
           123 0.875 2.523 0.523 2 (-1) 0 0.2 0.6 50 [42%Z] []).
  - lia.
  - lia.
  - lra.
  - lra.
  - lra.
  - lra.
Defined.

Lemma gen_mock_data_noise_model_witness :
  exists g g' : list R,
    length g = 50%nat /\ length g' = 50%nat
    /\ forall (m b s lo hi : R) (h : heap),
       0 <= s -> 0 <= lo -> 0 <= hi ->
       exists (x yobs yerr : list R) (h' : heap),
         gen_mock_data (G := lcg_generator) 123 m b s [lo; hi] 50 h
         = (Ok (x, yobs, yerr), h')
         /\ forall i : nat, (i < 50)%nat ->
              nth i yobs 0
              = m * nth i x 0 + b + s * nth i g 0
                + nth i yerr 0 * nth i g' 0.
Proof.
  apply (gen_mock_data_noise_model (G := lcg_generator) 123 50).
  - lia.
  - lia.
Defined.

Lemma gen_mock_data_noise_free_witness :
  exists (x : list R) (h' : heap),
    gen_mock_data (G := lcg_generator) 123 0.875 2.523 0 [0; 0] 50 [42%Z]
    = (Ok (x, map (fun xi => 0.875 * xi + 2.523) x, repeat 0 50), h').
Proof.
  apply (gen_mock_data_noise_free (G := lcg_generator)
           123 0.875 2.523 50 [42%Z]).
  - lia.
  - lia.
Defined.

Lemma gen_mock_data_yerr_between_witness :
  exists (x yobs yerr : list R) (h' : heap),
    gen_mock_data (G := lcg_generator) 123 0.875 2.523 0.523 [0.6; 0.2] 50
      [42%Z]
    = (Ok (x, yobs, yerr), h')
    /\ Forall (fun e => Rmin 0.6 0.2 <= e <= Rmax 0.6 0.2) yerr.
Proof.
  apply (gen_mock_data_yerr_between (G := lcg_generator)
           123 0.875 2.523 0.523 0.6 0.2 50 [42%Z]).
  - lia.
  - lia.
  - lra.
  - lra.
  - lra.
Defined.

Lemma neglogpost_wrong_arity_witness :
  neglogpost (G := lcg_generator) negloglike neglogprior
    [1; 3] [0; 1] [3; 4] [0.2; 0.6] prior_means prior_stds [42%Z]
  = (Raise ValueError, [42%Z]).
Proof.
  apply (neglogpost_wrong_arity (G := lcg_generator) negloglike neglogprior
           [1; 3] [0; 1] [3; 4] [0.2; 0.6] prior_means prior_stds [42%Z]).
  simpl. lia.
Defined.

(** Two callees that leave a mark in the state: the prior raises, and
    the mark of the likelihood does not appear. *)
Lemma neglogpost_outcome_witness :
  neglogpost (G := lcg_generator)
    (fun _ _ _ _ h => (Ok (Finite 1), h ++ [2%Z]))
    (fun _ _ _ h => (Raise DomainError, h ++ [1%Z]))
    [1; 3; 0.5] [0; 1] [3; 4] [0.2; 0.6] prior_means prior_stds []
  = (Raise DomainError, [1%Z]).
Proof.
  exact (neglogpost_outcome (G := lcg_generator)
           (fun _ _ _ _ h => (Ok (Finite 1), h ++ [2%Z]))
           (fun _ _ _ h => (Raise DomainError, h ++ [1%Z]))
           1 3 0.5 [0; 1] [3; 4] [0.2; 0.6] prior_means prior_stds
           [] [1%Z] [1%Z; 2%Z] (Raise DomainError) (Ok (Finite 1))
           eq_refl eq_refl).
Defined.

Lemma prior_covariance_symmetric_psd_witness :
  (forall i j : nat,
     entry (prior_covariance [0.25; 0.5; 0.15]) i j
     = entry (prior_covariance [0.25; 0.5; 0.15]) j i)
  /\ quadratic_form (prior_covariance [0.25; 0.5; 0.15]) [1; -2; 3]
     = np_sum (map2 (fun sd zi => sd ^ 2 * zi ^ 2)
                    [0.25; 0.5; 0.15] [1; -2; 3])
  /\ 0 <= quadratic_form (prior_covariance [0.25; 0.5; 0.15]) [1; -2; 3].
Proof.
  apply (prior_covariance_symmetric_psd [0.25; 0.5; 0.15] [1; -2; 3]).
  reflexivity.
Defined.
